(** * Resume ATS score predictor: the analysis pipeline of [app.py]

    A shallow embedding of the three functions of [app.py] that make up the
    analysis pipeline, and the properties of them that the specification
    relies on:

    - the prompt that [upload_resume] builds (the f-string [ats_prompt]);
    - [call_gemini_api_with_retry], the client with exponential backoff;
    - [parse_ats_response], the line-by-line parser of the model's reply.

    The rest of [app.py] follows: [extract_text_from_pdf], the database
    functions [get_db], [close_connection] and [init_db], and the view
    [upload_resume] that calls them all.  What the view does not decide
    is an [environment]: how [file.save], [os.remove], [sqlite3.connect]
    and the insertion end, besides the transport.  An exception that the
    code does not catch leaves the view as [Raised].

    Modelling conventions.

    - A Python [str] is a [string]; a character is a code point below 256
      (Latin-1), which covers every character the parser treats specially.
      In that range [str.isspace] and the regular expression class [\s]
      hold of the code points 9-13, 28-32, 133 and 160, and the class [\d]
      of the ten ASCII digits.
    - A Python value that the pipeline handles (the decoded JSON body of a
      response, the reply handed to the parser, [None]) is a [json].
    - A call that can raise returns an [outcome]: [Returned v] or [Raised e].
    - The network and the clock are an explicit trace of events ([Post],
      [Sleep]) threaded through the client; the transport is a function from
      the number of requests already sent to the outcome of the next one.
      Log lines are not part of the trace.
    - [max_retries] is a count and [initial_delay] a duration in whole time
      units: a natural number each.
    - The parser is stated for every value [max_str_digits] of the
      interpreter's limit on the length of integer strings, the one reason
      for which [int] can raise on a run of digits. *)

From Stdlib Require Import String Ascii List Bool ZArith NArith Lia.
From Stdlib Require Import DecimalString.
Import ListNotations.

Local Open Scope string_scope.
Local Open Scope list_scope.

(* ================================================================== *)
(** * Python strings *)

Module PyStr.

(** The line feed and the double quote, which a literal cannot hold. *)
Definition LF : ascii := ascii_of_nat 10.
Definition DQUOTE : ascii := ascii_of_nat 34.
Definition nl : string := String LF EmptyString.
Definition dq : string := String DQUOTE EmptyString.

(** [c.isspace()], also the class [\s] of [re] on a [str] pattern. *)
Definition isspace (c : ascii) : bool :=
  let n := N_of_ascii c in
  (((9 <=? n) && (n <=? 13)) || ((28 <=? n) && (n <=? 32))
   || (n =? 133) || (n =? 160))%N.

(** The class [\d] of [re] on a [str] pattern. *)
Definition isdecimal (c : ascii) : bool :=
  let n := N_of_ascii c in ((48 <=? n) && (n <=? 57))%N.

(** [c in chars], for a character [c]. *)
Fixpoint char_in (c : ascii) (chars : string) : bool :=
  match chars with
  | EmptyString => false
  | String d chars' => Ascii.eqb c d || char_in c chars'
  end.

(** [bool(s)]: a string is truthy when it is not empty. *)
Definition nonempty (s : string) : bool :=
  match s with EmptyString => false | String _ _ => true end.

(** Removal of the leading characters that satisfy [p]. *)
Fixpoint lstrip_by (p : ascii -> bool) (s : string) : string :=
  match s with
  | EmptyString => EmptyString
  | String c s' => if p c then lstrip_by p s' else s
  end.

(** Removal of the trailing characters that satisfy [p]. *)
Fixpoint rstrip_by (p : ascii -> bool) (s : string) : string :=
  match s with
  | EmptyString => EmptyString
  | String c s' =>
      match rstrip_by p s' with
      | EmptyString => if p c then EmptyString else String c EmptyString
      | String d r => String c (String d r)
      end
  end.

(** [s.strip()] *)
Definition strip (s : string) : string :=
  rstrip_by isspace (lstrip_by isspace s).

(** [s.lstrip(chars)] *)
Definition lstrip (chars : string) (s : string) : string :=
  lstrip_by (fun c => char_in c chars) s.

(** [s.startswith(p)] *)
Fixpoint startswith (p s : string) : bool :=
  match p, s with
  | EmptyString, _ => true
  | String _ _, EmptyString => false
  | String a p', String b s' => Ascii.eqb a b && startswith p' s'
  end.

(** [sub in s] *)
Fixpoint str_in (sub s : string) : bool :=
  startswith sub s
  || match s with
     | EmptyString => false
     | String _ s' => str_in sub s'
     end.

(** [s.split(sep)] for a one-character separator: never an empty list. *)
Fixpoint split (sep : ascii) (s : string) : list string :=
  match s with
  | EmptyString => [EmptyString]
  | String c s' =>
      if Ascii.eqb c sep then EmptyString :: split sep s'
      else match split sep s' with
           | [] => [String c EmptyString]
           | l :: ls => String c l :: ls
           end
  end.

(** The longest prefix of characters that satisfy [p]. *)
Fixpoint take_while (p : ascii -> bool) (s : string) : string :=
  match s with
  | EmptyString => EmptyString
  | String c s' => if p c then String c (take_while p s') else EmptyString
  end.

(** [s] without its prefix [p], when it has it. *)
Fixpoint drop_prefix (p s : string) : option string :=
  match p, s with
  | EmptyString, _ => Some s
  | String _ _, EmptyString => None
  | String a p', String b s' =>
      if Ascii.eqb a b then drop_prefix p' s' else None
  end.

(** The value of a run of ASCII digits read in base ten. *)
Definition digit_value (c : ascii) : Z := Z.of_N (N_of_ascii c) - 48.

Fixpoint int_of_digits_from (acc : Z) (ds : string) : Z :=
  match ds with
  | EmptyString => acc
  | String c ds' => int_of_digits_from (10 * acc + digit_value c) ds'
  end.

Definition int_of_digits (ds : string) : Z := int_of_digits_from 0 ds.

(** [str(n)] for an integer. *)
Definition str_of_int (n : Z) : string := NilZero.string_of_int (Z.to_int n).

End PyStr.

(* ================================================================== *)
(** * Python values, exceptions and the operations the code applies *)

Module Py.
Import PyStr.

Inductive exn : Type :=
| AttributeError | KeyError | IndexError | TypeError | ValueError
| RecursionError | OverflowError | OSError | FileNotFoundError
| OperationalError | ProgrammingError.

Inductive outcome (A : Type) : Type :=
| Returned (v : A)
| Raised (e : exn).
Arguments Returned {A} v.
Arguments Raised {A} e.

Definition bind {A B : Type} (r : outcome A) (k : A -> outcome B) : outcome B :=
  match r with
  | Returned v => k v
  | Raised e => Raised e
  end.

(** What [response.json()] can produce, and [None] as [JNull].  A float is
    kept only up to whether it is zero, which is all the code observes; an
    object is the list of its members, each key once. *)
#[warnings="-register-all"]
Inductive json : Type :=
| JNull
| JBool (b : bool)
| JInt (n : Z)
| JFloat (nonzero : bool)
| JStr (s : string)
| JArr (items : list json)
| JObj (members : list (string * json)).

(** [bool(v)] *)
Definition truthy (v : json) : bool :=
  match v with
  | JNull => false
  | JBool b => b
  | JInt n => negb (n =? 0)%Z
  | JFloat nonzero => nonzero
  | JStr s => nonempty s
  | JArr [] => false
  | JArr (_ :: _) => true
  | JObj [] => false
  | JObj (_ :: _) => true
  end.

Fixpoint lookup (k : string) (members : list (string * json)) : option json :=
  match members with
  | [] => None
  | (k', v) :: rest => if String.eqb k k' then Some v else lookup k rest
  end.

(** [v.get(k)]: only a dict has the method. *)
Definition get (k : string) (v : json) : outcome json :=
  match v with
  | JObj members =>
      match lookup k members with
      | Some x => Returned x
      | None => Returned JNull
      end
  | _ => Raised AttributeError
  end.

(** [v[k]] for a string key [k]. *)
Definition getitem (k : string) (v : json) : outcome json :=
  match v with
  | JObj members =>
      match lookup k members with
      | Some x => Returned x
      | None => Raised KeyError
      end
  | _ => Raised TypeError
  end.

(** [v[0]]: the first item of a list, the first character of a string; a
    dict decoded from JSON has no key [0]; nothing else is subscriptable. *)
Definition item0 (v : json) : outcome json :=
  match v with
  | JArr (x :: _) => Returned x
  | JArr [] => Raised IndexError
  | JStr (String c _) => Returned (JStr (String c EmptyString))
  | JStr EmptyString => Raised IndexError
  | JObj _ => Raised KeyError
  | _ => Raised TypeError
  end.

(** [a and b]: [b] is evaluated only when [a] is truthy. *)
Definition and_ (a b : outcome json) : outcome json :=
  match a with
  | Raised e => Raised e
  | Returned v => if truthy v then b else Returned v
  end.


(** [int(ds)] for a run [ds] of ASCII digits.  The conversion raises
    [ValueError] when the run is longer than the interpreter's limit on
    integer strings ([sys.get_int_max_str_digits()], 4300 unless changed;
    0 switches the limit off, and an interpreter without the limit behaves
    as with 0).  Runs of at most 640 digits are never checked. *)
Definition INT_MAX_STR_DIGITS_THRESHOLD : N := 640.

(** The limit of an interpreter that was not configured. *)
Definition DEFAULT_MAX_STR_DIGITS : N := 4300.

Definition int_too_long (max_str_digits : N) (ds : string) : bool :=
  let digits := N.of_nat (String.length ds) in
  ((INT_MAX_STR_DIGITS_THRESHOLD <? digits)
   && (0 <? max_str_digits) && (max_str_digits <? digits))%N.

Definition int_of_str (max_str_digits : N) (ds : string) : outcome Z :=
  if int_too_long max_str_digits ds then Raised ValueError
  else Returned (int_of_digits ds).

End Py.

(* ================================================================== *)
(** * [parse_ats_response] *)

Module Parser.
Import PyStr Py.

(** The value under ["atsScore"]: the string ["N/A"] or an [int]. *)
Inductive ats_score : Type :=
| ScoreNA
| ScoreInt (n : Z).

(** The dict that [parse_ats_response] returns. *)
Record AnalysisResult : Type := mkResult {
  atsScore : ats_score;
  suggestions : list string
}.

(** The three fixed messages of the function. *)
Definition NO_RESPONSE : string := "Could not get a response from AI.".
Definition NO_SUGGESTIONS : string :=
  "No specific suggestions were provided, but ensure your resume closely matches the job description keywords.".
Definition NOT_PARSED : string :=
  "Could not parse response or no specific suggestions provided. Ensure the job type is clear.".

(** [re.match(r"ATS Score:\s*(\d+)", s)], returning group 1.  The classes
    [\s] and [\d] are disjoint, so giving back white space never lets the
    digits match: the pattern matches at the start of [s] exactly when the
    label is there and a digit follows the longest run of white space, and
    the group is then the longest run of digits. *)
Definition re_match_score (s : string) : option string :=
  match drop_prefix "ATS Score:" s with
  | None => None
  | Some rest =>
      match take_while isdecimal (lstrip_by isspace rest) with
      | EmptyString => None
      | String d ds => Some (String d ds)
      end
  end.

(** [re.search(r"ATS Score:\s*(\d+)", line)], returning group 1 of the
    leftmost match. *)
Fixpoint re_search_score (line : string) : option string :=
  match re_match_score line with
  | Some digits => Some digits
  | None =>
      match line with
      | EmptyString => None
      | String _ line' => re_search_score line'
      end
  end.

(** [str(score)] *)
Definition str_of_score (score : ats_score) : string :=
  match score with
  | ScoreNA => "N/A"
  | ScoreInt n => str_of_int n
  end.

(** The two local variables that the loop updates. *)
Definition state : Type := (ats_score * list string)%type.

(** The body of [for line in lines]. *)
Definition loop_body (max_str_digits : N) (st : state) (line : string)
  : outcome state :=
  let '(score, suggestions) := st in
  match re_search_score line with
  | Some digits =>
      match int_of_str max_str_digits digits with
      | Returned n => Returned (ScoreInt n, suggestions)
      | Raised ValueError => Returned (score, suggestions)
      | Raised e => Raised e
      end
  | None =>
      if startswith "-" (strip line) then
        Returned (score, suggestions ++ [strip (lstrip "- " (strip line))])
      else if str_in "Suggestions:" line then
        Returned (score, suggestions)
      else if nonempty (strip line) then
        match suggestions with
        | [] =>
            if negb (str_in "ATS Score:" line)
            then Returned (score, suggestions ++ [strip line])
            else Returned (score, suggestions)
        | _ :: _ => Returned (score, suggestions)
        end
      else Returned (score, suggestions)
  end.

Fixpoint for_lines (max_str_digits : N) (lines : list string) (st : state)
  : outcome state :=
  match lines with
  | [] => Returned st
  | line :: rest =>
      bind (loop_body max_str_digits st line) (for_lines max_str_digits rest)
  end.

(** The statements after the loop. *)
Definition post_process (st : state) : AnalysisResult :=
  let '(score, suggestions) := st in
  match suggestions with
  | [] =>
      if negb (str_in "N/A" (str_of_score score))
      then mkResult score [NO_SUGGESTIONS]
      else mkResult score [NOT_PARSED]
  | _ :: _ => mkResult score suggestions
  end.

Definition parse_ats_response (max_str_digits : N) (gemini_output : json)
  : outcome AnalysisResult :=
  if negb (truthy gemini_output) then
    Returned (mkResult ScoreNA [NO_RESPONSE])
  else
    match gemini_output with
    | JStr s =>
        bind (for_lines max_str_digits (split LF s) (ScoreNA, []))
             (fun st => Returned (post_process st))
    | _ => Raised AttributeError
    end.

End Parser.

(* ================================================================== *)
(** * [call_gemini_api_with_retry] *)

Module Client.
Import PyStr Py.

(** The outcome of [requests.post], [raise_for_status] and [response.json()]:
    a [RequestException] (a body that is not JSON raises one of its
    subclasses), the decoded body, or an exception that is no
    [RequestException]: [response.json()] raises [ValueError] on an integer
    literal longer than the interpreter's limit and [RecursionError] on a
    body nested too deep, and neither is caught. *)
Inductive response : Type :=
| RequestException
| JsonBody (result : json)
| OtherException (e : exn).

(** What the function does to the outside: a request, a sleep. *)
Inductive event : Type :=
| Post (prompt : string)
| Sleep (seconds : N).

Definition world : Type := list event.

Definition posts (w : world) : nat :=
  List.length
    (filter (fun e => match e with Post _ => true | Sleep _ => false end) w).

Definition slept (w : world) : N :=
  fold_right
    (fun e acc => match e with Post _ => acc | Sleep d => (d + acc)%N end)
    0%N w.

(** The condition of the [if] on the decoded body. *)
Definition has_text (result : json) : outcome json :=
  and_ (Returned result)
  (and_ (get "candidates" result)
  (and_ (bind (bind (getitem "candidates" result) item0) (get "content"))
  (and_ (bind (bind (bind (getitem "candidates" result) item0)
                 (getitem "content")) (get "parts"))
        (bind (bind (bind (bind (bind (getitem "candidates" result) item0)
                 (getitem "content")) (getitem "parts")) item0) (get "text"))))).

(** [result["candidates"][0]["content"]["parts"][0]["text"]] *)
Definition text_of (result : json) : outcome json :=
  bind (bind (bind (bind (bind (getitem "candidates" result) item0)
    (getitem "content")) (getitem "parts")) item0) (getitem "text").

(** The statements of the [try] after the body is decoded. *)
Definition on_body (result : json) : outcome json :=
  bind (has_text result) (fun c =>
    if truthy c then text_of result else Returned JNull).

(** [for i in range(max_retries)], with [todo] iterations left from [i] on.
    The last line is the [return None] after the loop; an exception other
    than [RequestException] leaves the function. *)
Fixpoint retry_loop (transport : nat -> response) (prompt : string)
    (max_retries : nat) (initial_delay : N) (todo i : nat) (w : world)
  : outcome json * world :=
  match todo with
  | O => (Returned JNull, w)
  | S todo' =>
      let w1 := w ++ [Post prompt] in
      match transport (posts w) with
      | JsonBody result => (on_body result, w1)
      | OtherException e => (Raised e, w1)
      | RequestException =>
          if (Z.of_nat i <? Z.of_nat max_retries - 1)%Z then
            retry_loop transport prompt max_retries initial_delay todo' (S i)
              (w1 ++ [Sleep (initial_delay * 2 ^ N.of_nat i)])
          else (Returned JNull, w1)
      end
  end.

Definition call_gemini_api_with_retry (transport : nat -> response)
    (prompt : string) (max_retries : nat) (initial_delay : N) (w : world)
  : outcome json * world :=
  retry_loop transport prompt max_retries initial_delay max_retries 0 w.

End Client.

(* ================================================================== *)
(** * The prompt of [upload_resume] *)

Module Prompt.
Import PyStr.

Definition INDENT : string := "        ".

Definition before_job_type : string :=
  nl ++ INDENT ++ "Analyze the following resume text against the job type " ++ dq.

Definition before_resume_text : string :=
  dq ++ " to determine an ATS (Applicant Tracking System) compatibility score out of 100." ++ nl
  ++ INDENT ++ "Provide actionable suggestions to improve the resume's ATS score for this specific job type." ++ nl
  ++ INDENT ++ "Focus on keywords, formatting that might hinder ATS, and overall relevance." ++ nl
  ++ INDENT ++ "Structure your response clearly with the ATS Score on one line, followed by a "
  ++ dq ++ "Suggestions:" ++ dq ++ " heading, and then a bulleted list of suggestions." ++ nl
  ++ INDENT ++ "Always include " ++ dq ++ "/100" ++ dq ++ " after the score." ++ nl
  ++ nl
  ++ INDENT ++ "Resume Text:" ++ nl
  ++ INDENT.

Definition after_resume_text : string :=
  nl
  ++ nl
  ++ INDENT ++ "Expected Output Format:" ++ nl
  ++ INDENT ++ "ATS Score: [SCORE]/100" ++ nl
  ++ INDENT ++ "Suggestions:" ++ nl
  ++ INDENT ++ "- Suggestion 1" ++ nl
  ++ INDENT ++ "- Suggestion 2" ++ nl
  ++ INDENT.

(** The f-string [ats_prompt]. *)
Definition ats_prompt (job_type resume_text : string) : string :=
  before_job_type ++ job_type ++ before_resume_text ++ resume_text
  ++ after_resume_text.

End Prompt.

(* ================================================================== *)
(** * Notions used to state the properties *)

Module Spec.
Import PyStr Py Parser Client.

(** [sub] occurs in [s] as a contiguous run of characters. *)
Definition substring (sub s : string) : Prop :=
  exists before after, s = (before ++ sub ++ after)%string.

(** Every character of [s] satisfies [p]. *)
Fixpoint all_chars (p : ascii -> bool) (s : string) : bool :=
  match s with
  | EmptyString => true
  | String c s' => p c && all_chars p s'
  end.

(** The first character of [s], if any, does not satisfy [p]. *)
Definition head_not (p : ascii -> bool) (s : string) : bool :=
  match s with
  | EmptyString => true
  | String c _ => negb (p c)
  end.

(** [sep.join(lines)] for a one-character separator. *)
Fixpoint join (sep : ascii) (lines : list string) : string :=
  match lines with
  | [] => EmptyString
  | [l] => l
  | l :: rest => (l ++ String sep (join sep rest))%string
  end.

(** A trimmed line made of hyphens and spaces only. *)
Definition hollow (s : string) : bool :=
  all_chars (fun c => char_in c "- ") s.

(** The lines that reach the second branch of the loop body: no score
    pattern in them, and a hyphen first once trimmed. *)
Definition is_bullet (line : string) : bool :=
  match re_search_score line with
  | Some _ => false
  | None => startswith "-" (strip line)
  end.

(** What the second branch appends for such a line. *)
Definition bullet_text (line : string) : string :=
  strip (lstrip "- " (strip line)).

(** The state after one line: what the body returns (it never raises, see
    [loop_body_returns]). *)
Definition next_state (max_str_digits : N) (st : state) (line : string)
  : state :=
  match loop_body max_str_digits st line with
  | Returned st' => st'
  | Raised _ => st
  end.

(** An integer score that is not negative, or the marker. *)
Definition score_ok (score : ats_score) : Prop :=
  match score with
  | ScoreNA => True
  | ScoreInt n => (0 <= n)%Z
  end.

(** [2^i + 2^(i+1) + ... + 2^(i+n-1)] *)
Fixpoint pow2_sum (i n : nat) : N :=
  match n with
  | O => 0
  | S n' => 2 ^ N.of_nat i + pow2_sum (S i) n'
  end.

(** The trace is empty or ends with a request, not with a sleep. *)
Definition ends_with_post (prompt : string) (w : world) : Prop :=
  w = [] \/ exists w', w = w' ++ [Post prompt].

End Spec.

(* ================================================================== *)
(** * Further notions used to state properties of the client *)

Module ClientSpec.
Import PyStr Py Client.

(** The trace of [n] requests in a row from iteration [i] on: a request,
    then for each further request a sleep of [initial_delay * 2^i] and the
    request. *)
Fixpoint backoff_trace (prompt : string) (initial_delay : N) (i n : nat)
  : world :=
  match n with
  | O => []
  | S n' =>
      Post prompt ::
      match n' with
      | O => []
      | S _ =>
          Sleep (initial_delay * 2 ^ N.of_nat i)
          :: backoff_trace prompt initial_delay (S i) n'
      end
  end.

(** The members of a body on the path to the text: the first candidate,
    its content, the first part, and the text [t] of that part. *)
Definition text_at (result t : json) : Prop :=
  exists m1 m2 m3 m4 cs ps,
    result = JObj m1
    /\ lookup "candidates" m1 = Some (JArr (JObj m2 :: cs))
    /\ lookup "content" m2 = Some (JObj m3)
    /\ lookup "parts" m3 = Some (JArr (JObj m4 :: ps))
    /\ lookup "text" m4 = Some t.

(** A delay that [time.sleep] takes on every platform: it raises
    [OverflowError] above 9223372036 seconds, and [OSError] on some
    platforms just below. *)
Definition SLEEP_SAFE : N := 100000000.

(** Every sleep that a call can make is one that [time.sleep] takes. *)
Definition sleeps_safe (max_retries : nat) (initial_delay : N) : Prop :=
  forall i, S i < max_retries ->
    (initial_delay * 2 ^ N.of_nat i <= SLEEP_SAFE)%N.

End ClientSpec.

(* ================================================================== *)
(** * Further notions used to state properties of the parser *)

Module ParserSpec.
Import PyStr Py Parser Spec.

(** A line of white space only: [line.strip()] is falsy. *)
Definition is_blank (line : string) : bool := negb (nonempty (strip line)).

(** A line that sets the score: the pattern is in it and [int] accepts
    its digits. *)
Definition sets_score (max_str_digits : N) (line : string) : bool :=
  match re_search_score line with
  | Some digits => negb (int_too_long max_str_digits digits)
  | None => false
  end.

(** The score that a line sets, for a line that sets one. *)
Definition score_of_line (line : string) : ats_score :=
  match re_search_score line with
  | Some digits => ScoreInt (int_of_digits digits)
  | None => ScoreNA
  end.

(** A line that passes every test of the last branch of the loop body but
    the one on the suggestions collected so far. *)
Definition is_plain (line : string) : bool :=
  match re_search_score line with
  | Some _ => false
  | None =>
      negb (startswith "-" (strip line))
      && negb (str_in "Suggestions:" line)
      && nonempty (strip line)
      && negb (str_in "ATS Score:" line)
  end.

(** The suggestion of the lenient rule: the first plain line, when no
    bullet line comes before it. *)
Fixpoint lenient_suggestion (lines : list string) : list string :=
  match lines with
  | [] => []
  | line :: rest =>
      if is_bullet line then []
      else if is_plain line then [strip line]
      else lenient_suggestion rest
  end.

(** [line'] is [line] with white space added before and after. *)
Definition padded (line line' : string) : Prop :=
  exists ws1 ws2,
    line' = (ws1 ++ line ++ ws2)%string
    /\ all_chars isspace ws1 = true /\ all_chars isspace ws2 = true.

(** The output that the docstring of [parse_ats_response] assumes: the
    score line, the heading, and one hyphen line for each suggestion. *)
Definition structured_output (digits : string) (suggs : list string)
  : string :=
  join LF (("ATS Score: " ++ digits ++ "/100")%string
           :: "Suggestions:"%string
           :: map (fun sugg => ("- " ++ sugg)%string) suggs).

(** A suggestion that a hyphen line carries as it is: on one line, trimmed,
    no hyphen first, no score pattern in it. *)
Definition carried (sugg : string) : bool :=
  negb (char_in LF sugg)
  && String.eqb (strip sugg) sugg
  && negb (startswith "-" sugg)
  && match re_search_score sugg with Some _ => false | None => true end.

(** The filler that stands for an empty list of suggestions. *)
Definition filler (score : ats_score) : string :=
  match score with
  | ScoreNA => NOT_PARSED
  | ScoreInt _ => NO_SUGGESTIONS
  end.

End ParserSpec.

(* ================================================================== *)
(** * [extract_text_from_pdf] *)

Module Pdf.
Import PyStr.

(** What [page.extract_text()] does on a page: it returns a string or
    [None], or it raises. *)
Inductive page : Type :=
| PageText (text : option string)
| PageError.

(** What [PdfReader] makes of the file at [pdf_path]: it raises (on the
    file or on its pages), or it gives the pages. *)
Inductive document : Type :=
| Unreadable
| Readable (pages : list page).

(** [x or ""] for a string or [None]. *)
Definition or_empty (x : option string) : string :=
  match x with
  | Some s => if nonempty s then s else EmptyString
  | None => EmptyString
  end.

(** [for page in reader.pages], with [text] so far; [None] when a page
    raises, which the handler of the function turns into [return None]. *)
Fixpoint for_pages (pages : list page) (text : string) : option string :=
  match pages with
  | [] => Some text
  | PageText t :: rest => for_pages rest (text ++ or_empty t)
  | PageError :: _ => None
  end.

Definition extract_text_from_pdf (doc : document) : option string :=
  match doc with
  | Unreadable => None
  | Readable pages => for_pages pages EmptyString
  end.

End Pdf.

(* ================================================================== *)
(** * [get_db], [close_connection], [init_db] *)

Module Db.

(** A row of the table [results], without its [id]. *)
Record row : Type := mkRow {
  timestamp : string;
  resume_text : string;
  job_type : string;
  ats_score : option Z;
  suggestions : string
}.

(** The database file and its connections: the table [results] once it is
    created, the number of connections made so far (a connection is known
    by its number) and the connections that are open. *)
Record database : Type := mkDatabase {
  results : option (list row);
  connected : nat;
  open : list nat
}.

(** The attribute [_database] of [g], unset in a new application context. *)
Definition context : Type := option nat.

(** [sqlite3.connect(DATABASE)] *)
Definition connect (d : database) : nat * database :=
  (connected d,
   mkDatabase (results d) (S (connected d)) (connected d :: open d)).

(** [db.close()] *)
Definition close (c : nat) (d : database) : database :=
  mkDatabase (results d) (connected d)
    (filter (fun c' => negb (Nat.eqb c' c)) (open d)).

Definition get_db (g : context) (d : database) : nat * context * database :=
  match g with
  | None => let '(c, d') := connect d in (c, Some c, d')
  | Some c => (c, g, d)
  end.

Definition close_connection (g : context) (d : database) : database :=
  match g with
  | Some c => close c d
  | None => d
  end.

(** Whether [db.cursor()] returns: it raises [sqlite3.ProgrammingError] on
    a connection that is closed. *)
Definition cursor (c : nat) (d : database) : bool :=
  existsb (Nat.eqb c) (open d).

(** [CREATE TABLE IF NOT EXISTS results ...] and [commit]. *)
Definition create_table (d : database) : database :=
  mkDatabase
    (match results d with Some rows => Some rows | None => Some [] end)
    (connected d) (open d).

(** [init_db]: a new application context, the table, and the teardown of
    the context when the [with] block ends. *)
Definition init_db (d : database) : database :=
  let '(_, g, d1) := get_db None d in
  close_connection g (create_table d1).

(** The integers that SQLite stores. *)
Definition INT64_MIN : Z := -9223372036854775808.
Definition INT64_MAX : Z := 9223372036854775807.

(** Whether the value of the column [ats_score] can be bound: [None]
    always, an integer when it has 64 bits. *)
Definition binds (v : option Z) : bool :=
  match v with
  | None => true
  | Some n => ((INT64_MIN <=? n) && (n <=? INT64_MAX))%Z
  end.

(** What the database does to the statement apart from its contents: it
    takes it, or it raises [sqlite3.Error] before the values are bound
    (when the statement is prepared or the transaction begun: a file that
    is locked or no database), or after (when the statement is run or
    committed: a locked or full database). *)
Inductive failure : Type :=
| NoFailure
| AtPrepare
| AtStep.

(** How [cursor.execute(INSERT ...)] and [db.commit()] end: the row is
    there; [sqlite3.Error] was raised; [OverflowError] was raised. *)
Inductive inserted : Type :=
| Inserted
| SqliteError
| IntTooLarge.

(** [INSERT INTO results ...] and [commit].  The statement is prepared
    first, which fails when the table is missing; then the values are
    bound, which raises [OverflowError] for an integer of more than 64
    bits; then it is run and committed, and the row is added at the end of
    the table.  The table is as before when an exception is raised. *)
Definition insert (f : failure) (r : row) (d : database)
  : inserted * database :=
  match results d with
  | None => (SqliteError, d)
  | Some rows =>
      match f with
      | AtPrepare => (SqliteError, d)
      | AtStep =>
          if binds (ats_score r) then (SqliteError, d) else (IntTooLarge, d)
      | NoFailure =>
          if binds (ats_score r)
          then (Inserted,
                mkDatabase (Some (rows ++ [r])) (connected d) (open d))
          else (IntTooLarge, d)
      end
  end.

End Db.

(* ================================================================== *)
(** * [upload_resume] *)

Module Upload.
Import PyStr Py Parser Client Prompt Pdf Db.

(** [s.endswith(suffix)] *)
Fixpoint endswith (suffix s : string) : bool :=
  String.eqb s suffix
  || match s with
     | EmptyString => false
     | String _ s' => endswith suffix s'
     end.

(** [os.path.join(a, b)] of [posixpath]. *)
Definition path_join (a b : string) : string :=
  if startswith "/" b then b
  else if negb (nonempty a) || endswith "/" a then (a ++ b)%string
  else (a ++ "/" ++ b)%string.

Definition UPLOAD_FOLDER : string := "uploads".

(** An uploaded file: its name as the client sent it, and what [PdfReader]
    makes of its bytes once they are saved. *)
Record file_storage : Type := mkFile {
  filename : string;
  document : Pdf.document
}.

(** The parts of the request that the view reads: [request.files] at
    ['resume'] and [request.form] at ['job_type']. *)
Record request : Type := mkRequest {
  files_resume : option file_storage;
  form_job_type : option string
}.

(** What the view does to the disk: a file is there at [path] after
    [Save], whole or in part, and gone after [Remove]. *)
Inductive disk_event : Type :=
| Save (path : string)
| Remove (path : string).

(** The outside of the view: the requests and sleeps of the client, the
    disk, the database, and [g]. *)
Record world : Type := mkWorld {
  net : Client.world;
  disk : list disk_event;
  db : Db.database;
  g : Db.context
}.

(** How [file.save(filepath)] ends: the file is written, or an exception
    is raised (the folder of the path is missing, the disk is full),
    before the file is created or after. *)
Inductive saved : Type :=
| Saved
| SaveRaised (x : exn) (created : bool).

(** What the view does not decide: the outcome of each request of this
    upload to the generation service, the interpreter's limit on integer
    strings, how [file.save] ends at a path, the exception that
    [os.remove] raises at a path if it raises one, the exception that
    [sqlite3.connect] raises if it raises one, what the database does to
    the insertion, the clock, and [json.dumps] on a list of strings. *)
Record environment : Type := mkEnv {
  transport : nat -> response;
  max_str_digits : N;
  save : string -> saved;
  remove_raises : string -> option exn;
  connect_raises : option exn;
  insert_failure : failure;
  now : string;
  dumps : list string -> string
}.

(** The JSON body of a response. *)
Inductive body : Type :=
| Error (error : string)
| Analysis (atsScore : Parser.ats_score) (suggestions : list string)
    (extracted_text : string).

(** [request.form.get('job_type', 'General Job').strip()], and the
    default once more when that is empty. *)
Definition job_type_of (field : option string) : string :=
  let job_type :=
    strip (match field with Some v => v | None => "General Job"%string end) in
  if nonempty job_type then job_type else "General Job"%string.

(** [parsed_response["atsScore"] if isinstance(..., int) else None] *)
Definition ats_score_val (score : Parser.ats_score) : option Z :=
  match score with
  | ScoreInt n => Some n
  | ScoreNA => None
  end.

(** The view, after the text is extracted: the prompt, the call, the
    parser, the connection, the cursor, the insertion, the response.  An
    exception of the call, of the parser, of [sqlite3.connect] in [get_db],
    of [db.cursor()], and the [OverflowError] of the insertion leave the
    view; the [sqlite3.Error] of the insertion is caught. *)
Definition analyse (e : environment) (resume_text : string)
    (field : option string) (w : world)
  : outcome (body * nat) * world :=
  let job_type := job_type_of field in
  let ats_prompt := ats_prompt job_type resume_text in
  let '(gemini_response, trace) :=
    call_gemini_api_with_retry (transport e) ats_prompt 5 1 [] in
  let w1 := mkWorld (net w ++ trace) (disk w) (db w) (g w) in
  match gemini_response with
  | Raised x => (Raised x, w1)
  | Returned reply =>
      match parse_ats_response (max_str_digits e) reply with
      | Raised x => (Raised x, w1)
      | Returned parsed_response =>
          match g w1, connect_raises e with
          | None, Some x => (Raised x, w1)
          | _, _ =>
              let '(c, g2, d2) := get_db (g w1) (db w1) in
              if cursor c d2 then
                let r :=
                  mkRow (now e) resume_text job_type
                    (ats_score_val (Parser.atsScore parsed_response))
                    (dumps e (Parser.suggestions parsed_response)) in
                let '(how, d3) := insert (insert_failure e) r d2 in
                let w2 := mkWorld (net w1) (disk w1) d3 g2 in
                match how with
                | IntTooLarge => (Raised OverflowError, w2)
                | Inserted | SqliteError =>
                    (Returned
                       (Analysis (Parser.atsScore parsed_response)
                          (Parser.suggestions parsed_response) resume_text,
                        200), w2)
                end
              else (Raised ProgrammingError, mkWorld (net w1) (disk w1) d2 g2)
          end
      end
  end.

(** The view.  An exception of [file.save] or of [os.remove] leaves the
    view: the file is then not removed. *)
Definition upload_resume (e : environment) (req : request) (w : world)
  : outcome (body * nat) * world :=
  match files_resume req with
  | None => (Returned (Error "No resume file part", 400), w)
  | Some file =>
      if String.eqb (filename file) "" then
        (Returned (Error "No selected file", 400), w)
      else if nonempty (filename file) && endswith ".pdf" (filename file)
      then
        let filepath := path_join UPLOAD_FOLDER (filename file) in
        match save e filepath with
        | SaveRaised x created =>
            (Raised x,
             mkWorld (net w)
               (disk w ++ if created then [Save filepath] else [])
               (db w) (g w))
        | Saved =>
            let resume_text := extract_text_from_pdf (document file) in
            match remove_raises e filepath with
            | Some x =>
                (Raised x,
                 mkWorld (net w) (disk w ++ [Save filepath]) (db w) (g w))
            | None =>
                let w1 :=
                  mkWorld (net w)
                    (disk w ++ [Save filepath; Remove filepath])
                    (db w) (g w) in
                match resume_text with
                | None | Some EmptyString =>
                    (Returned
                       (Error
                          "Failed to extract text from PDF. Please ensure it's a searchable PDF.",
                        500), w1)
                | Some text => analyse e text (form_job_type req) w1
                end
            end
        end
      else
        (Returned (Error "Invalid file type. Only PDF is supported.", 400), w)
  end.

(** A request as the framework runs it: a new [g], the view, and the
    function registered with [teardown_appcontext], also when the view
    raises. *)
Definition serve (e : environment) (req : request) (w : world)
  : outcome (body * nat) * world :=
  let '(r, w1) :=
    upload_resume e req (mkWorld (net w) (disk w) (db w) None) in
  (r, mkWorld (net w1) (disk w1) (close_connection (g w1) (db w1)) None).

End Upload.

(* ================================================================== *)
(** * Further notions used to state properties of the view *)

Module UploadSpec.
Import PyStr Py Parser Client Pdf Db Upload.

(** A page whose text is extracted. *)
Definition page_ok (p : page) : bool :=
  match p with
  | PageText _ => true
  | PageError => false
  end.

(** The text that a page adds. *)
Definition page_text (p : page) : string :=
  match p with
  | PageText (Some s) => s
  | PageText None | PageError => EmptyString
  end.

(** The texts of the pages, one after the other. *)
Fixpoint pages_text (pages : list page) : string :=
  match pages with
  | [] => EmptyString
  | p :: rest => (page_text p ++ pages_text rest)%string
  end.

(** A request that passes the three tests on the upload: a file part, a
    file name, and the ending [.pdf]. *)
Definition accepted (req : request) : bool :=
  match files_resume req with
  | Some file => nonempty (filename file) && endswith ".pdf" (filename file)
  | None => false
  end.

(** The message of the response to a request that is not accepted. *)
Definition rejection (req : request) : string :=
  match files_resume req with
  | None => "No resume file part"
  | Some file =>
      if nonempty (filename file)
      then "Invalid file type. Only PDF is supported."
      else "No selected file"
  end.

(** The text of an accepted upload, when there is some. *)
Definition resume_text_of (req : request) : option string :=
  match files_resume req with
  | Some file =>
      match extract_text_from_pdf (document file) with
      | Some (String c s) => Some (String c s)
      | _ => None
      end
  | None => None
  end.

(** The path at which the upload is saved. *)
Definition filepath_of (req : request) : string :=
  match files_resume req with
  | Some file => path_join UPLOAD_FOLDER (filename file)
  | None => EmptyString
  end.

(** The open connections are among those made so far. *)
Definition well_numbered (d : database) : Prop :=
  Forall (fun c => c < connected d) (open d).

(** [n] calls of [get_db] in a row; the connection that the last one
    returns. *)
Fixpoint get_db_times (n : nat) (g : context) (d : database)
  : option nat * context * database :=
  match n with
  | O => (None, g, d)
  | S n' =>
      let '(c, g', d') := get_db g d in
      match n' with
      | O => (Some c, g', d')
      | S _ => get_db_times n' g' d'
      end
  end.

(** The disk takes the upload: [file.save] and [os.remove] do not raise
    at its path. *)
Definition disk_works (e : environment) (req : request) : Prop :=
  save e (filepath_of req) = Saved
  /\ remove_raises e (filepath_of req) = None.

(** The environment [e] with another behaviour of the database at the
    insertion. *)
Definition with_failure (f : failure) (e : environment) : environment :=
  mkEnv (transport e) (max_str_digits e) (save e) (remove_raises e)
    (connect_raises e) f (now e) (dumps e).

(** The row that the view inserts for a result. *)
Definition row_for (e : environment) (req : request) (text : string)
    (score : Parser.ats_score) (sugg : list string) : Db.row :=
  Db.mkRow (now e) text (job_type_of (form_job_type req))
    (ats_score_val score) (dumps e sugg).

End UploadSpec.

(* ================================================================== *)
(** * Sample values *)

Module Samples.
Import PyStr Py Parser Client Pdf Db Upload.

Definition CR : string := String (ascii_of_nat 13) EmptyString.

(** A body with the text [t] on the path. *)
Definition body_with_text (t : json) : json :=
  JObj [("candidates"%string,
         JArr [JObj [("content"%string,
                      JObj [("parts"%string,
                             JArr [JObj [("text"%string, t)]])])]])].

(** A body whose first candidate is a string. *)
Definition body_blocked : json :=
  JObj [("candidates"%string, JArr [JStr "blocked"])].

Definition reply_text : string :=
  ("ATS Score: 82/100" ++ nl ++ "Suggestions:" ++ nl
   ++ "- Add keywords" ++ nl ++ "- Fix formatting")%string.

(** Two failed requests, then a body with [reply_text]. *)
Definition third_time (k : nat) : response :=
  if Nat.ltb k 2 then RequestException
  else JsonBody (body_with_text (JStr reply_text)).

(** An environment in which the disk and the database work. *)
Definition env_of (t : nat -> response) : environment :=
  mkEnv t DEFAULT_MAX_STR_DIGITS (fun _ => Saved) (fun _ => None) None
    NoFailure "2025-01-01T00:00:00" (String.concat "; ").

(** An environment in which [file.save] finds no folder for the path. *)
Definition env_no_folder : environment :=
  mkEnv third_time DEFAULT_MAX_STR_DIGITS
    (fun _ => SaveRaised FileNotFoundError false) (fun _ => None) None
    NoFailure "2025-01-01T00:00:00" (String.concat "; ").


Definition cv : file_storage :=
  mkFile "cv.pdf"
    (Readable [PageText (Some "Jane Doe"%string); PageText None;
               PageText (Some " Engineer"%string)]).

Definition scanned : file_storage :=
  mkFile "scan.pdf" (Readable [PageText None; PageText (Some ""%string)]).

Definition start : world :=
  mkWorld [] [] (mkDatabase (Some []) 0 []) None.

End Samples.

Import PyStr Py Parser Client Prompt Spec.

(* ================================================================== *)
(** * Facts on strings *)

Section StringFacts.

Lemma append_nil_r (s : string) : (s ++ "")%string = s.
Proof. induction s as [|c s IH]; simpl; [reflexivity | now rewrite IH]. Qed.

Lemma append_assoc (a b c : string) :
  ((a ++ b) ++ c = a ++ b ++ c)%string.
Proof. induction a as [|x a IH]; simpl; [reflexivity | now rewrite IH]. Qed.

Lemma str_in_unfold (sub s : string) :
  str_in sub s =
  startswith sub s
  || match s with EmptyString => false | String _ s' => str_in sub s' end.
Proof. destruct s; reflexivity. Qed.

Lemma startswith_append (p t : string) :
  startswith p (p ++ t)%string = true.
Proof.
  induction p as [|a p IH]; simpl.
  - now destruct t.
  - now rewrite Ascii.eqb_refl, IH.
Qed.

Lemma startswith_inv (p s : string) :
  startswith p s = true -> exists t, s = (p ++ t)%string.
Proof.
  revert s; induction p as [|a p IH]; intros s H.
  - now exists s.
  - destruct s as [|b s]; simpl in H; [discriminate|].
    apply andb_true_iff in H as [Hab Hps].
    apply Ascii.eqb_eq in Hab; subst b.
    destruct (IH _ Hps) as [t ->]. now exists t.
Qed.

(** [str_in] decides [substring]. *)
Lemma str_in_substring (sub s : string) :
  str_in sub s = true <-> substring sub s.
Proof.
  split.
  - induction s as [|c s IH]; rewrite str_in_unfold; intros H;
      apply orb_true_iff in H as [H|H].
    + destruct (startswith_inv _ _ H) as [t Ht]. now exists "", t.
    + discriminate.
    + destruct (startswith_inv _ _ H) as [t Ht]. now exists "", t.
    + destruct (IH H) as (a & b & ->). now exists (String c a), b.
  - intros (a & b & ->).
    induction a as [|c a IH]; rewrite str_in_unfold.
    + simpl. now rewrite startswith_append.
    + simpl. rewrite IH. apply orb_true_r.
Qed.

Lemma substring_here (sub after : string) :
  substring sub (sub ++ after)%string.
Proof. now exists "", after. Qed.

Lemma substring_skip (sub before s : string) :
  substring sub s -> substring sub (before ++ s)%string.
Proof.
  intros (a & b & ->). exists (before ++ a)%string, b. now rewrite append_assoc.
Qed.

(** A string that holds [sub] holds each character of [sub]. *)
Lemma substring_char (c : ascii) (sub s : string) :
  substring sub s -> char_in c sub = true -> char_in c s = true.
Proof.
  intros (a & b & ->) Hc.
  induction a as [|x a IH]; simpl.
  - clear -Hc. induction sub as [|y sub IH]; simpl in *; [discriminate|].
    apply orb_true_iff in Hc as [Hc|Hc].
    + now rewrite Hc.
    + rewrite (IH Hc). apply orb_true_r.
  - rewrite IH. apply orb_true_r.
Qed.

End StringFacts.

(* ================================================================== *)
(** * Facts on trimming *)

Section StripFacts.

Variable p : ascii -> bool.

Lemma rstrip_by_all (s : string) :
  all_chars p s = true -> rstrip_by p s = "".
Proof.
  induction s as [|c s IH]; simpl; [reflexivity|].
  intros H. apply andb_true_iff in H as [Hc Hs].
  now rewrite (IH Hs), Hc.
Qed.

Lemma rstrip_by_empty (s : string) :
  rstrip_by p s = "" -> all_chars p s = true.
Proof.
  induction s as [|c s IH]; simpl; [reflexivity|].
  destruct (rstrip_by p s) as [|d r] eqn:E; [|discriminate].
  destruct (p c); [|discriminate].
  intros _. now rewrite IH.
Qed.

Lemma lstrip_by_all (s : string) :
  all_chars p (lstrip_by p s) = all_chars p s.
Proof.
  induction s as [|c s IH]; simpl; [reflexivity|].
  destruct (p c) eqn:E; simpl; [exact IH | now rewrite E].
Qed.

Lemma lstrip_by_empty (s : string) :
  lstrip_by p s = "" <-> all_chars p s = true.
Proof.
  induction s as [|c s IH]; simpl; [tauto|].
  destruct (p c); simpl; [exact IH|].
  split; discriminate.
Qed.

(** A string that [rstrip_by] leaves alone keeps that property when
    characters are taken off its front. *)
Lemma rstrip_by_fixed_tail (c : ascii) (s : string) :
  rstrip_by p (String c s) = String c s -> rstrip_by p s = s.
Proof.
  simpl. destruct (rstrip_by p s) as [|d r] eqn:E.
  - destruct (p c); [discriminate|]. now intros [= <-].
  - now intros [= <-].
Qed.

Lemma rstrip_by_fixed_lstrip (q : ascii -> bool) (s : string) :
  rstrip_by p s = s -> rstrip_by p (lstrip_by q s) = lstrip_by q s.
Proof.
  induction s as [|c s IH]; intros H; [reflexivity|].
  simpl lstrip_by. destruct (q c); [|exact H].
  apply IH. exact (rstrip_by_fixed_tail _ _ H).
Qed.

Lemma rstrip_by_idempotent (s : string) :
  rstrip_by p (rstrip_by p s) = rstrip_by p s.
Proof.
  induction s as [|c s IH]; [reflexivity|].
  simpl. destruct (rstrip_by p s) as [|d r] eqn:E.
  - destruct (p c) eqn:Ec; simpl; [reflexivity | now rewrite Ec].
  - change (rstrip_by p (String c (String d r)))
      with (match rstrip_by p (String d r) with
            | EmptyString => if p c then EmptyString else String c EmptyString
            | String d' r' => String c (String d' r')
            end).
    now rewrite IH.
Qed.

(** A string left alone by [rstrip_by] and made of [p] only is empty. *)
Lemma rstrip_by_fixed_all (s : string) :
  rstrip_by p s = s -> all_chars p s = true -> s = "".
Proof. intros Hfix Hall. now rewrite <- Hfix, rstrip_by_all. Qed.

(** [lstrip_by] takes off a run of [p] and stops at the first character
    that is not [p]. *)
Lemma lstrip_by_decompose (s : string) :
  s = (take_while p s ++ lstrip_by p s)%string
  /\ all_chars p (take_while p s) = true
  /\ head_not p (lstrip_by p s) = true.
Proof.
  induction s as [|c s (IH1 & IH2 & IH3)]; simpl; [auto|].
  destruct (p c) eqn:E; simpl.
  - rewrite E, <- IH1. auto.
  - rewrite E. auto.
Qed.

(** [rstrip_by] takes off a run of [p] at the end. *)
Lemma rstrip_by_decompose (s : string) :
  exists tail, s = (rstrip_by p s ++ tail)%string /\ all_chars p tail = true.
Proof.
  induction s as [|c s (tail & E & Hall)]; simpl.
  - now exists "".
  - destruct (rstrip_by p s) as [|d r] eqn:Er.
    + destruct (p c) eqn:Ec.
      * exists (String c s). split; [reflexivity|].
        simpl. rewrite Ec. simpl in E. subst tail. exact Hall.
      * exists tail. simpl in E. now subst tail.
    + exists tail. split; [now rewrite E at 1 | exact Hall].
Qed.

(** What [rstrip_by] leaves does not end with a character of [p]. *)
Lemma rstrip_by_last (s t : string) (c : ascii) :
  rstrip_by p s = (t ++ String c "")%string -> p c = false.
Proof.
  revert t. induction s as [|x s IH]; intros t; simpl.
  - now destruct t.
  - destruct (rstrip_by p s) as [|d r] eqn:Er.
    + destruct (p x) eqn:Ex; [now destruct t|].
      destruct t as [|y t]; simpl; [now intros [= <-]|].
      intros [= _ H]. now destruct t.
    + destruct t as [|y t]; simpl; [discriminate|].
      intros [= _ H]. exact (IH _ H).
Qed.

Lemma take_while_append (ds rest : string) :
  all_chars p ds = true -> head_not p rest = true ->
  take_while p (ds ++ rest) = ds.
Proof.
  induction ds as [|c ds IH]; simpl; intros Hall Hrest.
  - destruct rest as [|c rest]; [reflexivity|].
    simpl in *. now destruct (p c).
  - apply andb_true_iff in Hall as [Hc Hds]. now rewrite Hc, IH.
Qed.

Lemma take_while_append_more (ds rest : string) :
  all_chars p ds = true ->
  take_while p (ds ++ rest) = (ds ++ take_while p rest)%string.
Proof.
  induction ds as [|c ds IH]; simpl; intros Hall; [reflexivity|].
  apply andb_true_iff in Hall as [Hc Hds]. now rewrite Hc, IH.
Qed.

Lemma lstrip_by_append (ws rest : string) :
  all_chars p ws = true -> head_not p rest = true ->
  lstrip_by p (ws ++ rest) = rest.
Proof.
  induction ws as [|c ws IH]; simpl; intros Hall Hrest.
  - destruct rest as [|c rest]; [reflexivity|].
    simpl in *. now destruct (p c).
  - apply andb_true_iff in Hall as [Hc Hws]. now rewrite Hc, IH.
Qed.

End StripFacts.

Lemma split_nonempty (sep : ascii) (s : string) : split sep s <> [].
Proof.
  destruct s as [|c s]; simpl; [discriminate|].
  destruct (Ascii.eqb c sep); [discriminate|].
  destruct (split sep s); discriminate.
Qed.

(** [split] cuts at every line feed and nowhere else. *)
Lemma join_split (s : string) : join LF (split LF s) = s.
Proof.
  induction s as [|c s IH]; [reflexivity|].
  cbn [split]. pose proof (split_nonempty LF s) as Hne.
  destruct (split LF s) as [|l ls]; [congruence|].
  destruct (Ascii.eqb_spec c LF) as [->|Hc].
  - change (join LF ("" :: l :: ls)) with (String LF (join LF (l :: ls))).
    now rewrite IH.
  - destruct ls; simpl in *; now rewrite <- IH.
Qed.

Lemma split_no_line_feed (s l : string) :
  In l (split LF s) -> char_in LF l = false.
Proof.
  revert l. induction s as [|c s IH]; intros l; cbn [split].
  - now intros [<-|[]].
  - pose proof (split_nonempty LF s) as Hne.
    destruct (split LF s) as [|x ls]; [congruence|].
    destruct (Ascii.eqb_spec c LF) as [->|Hc].
    + intros [<-|H]; [reflexivity | now apply IH].
    + intros [<-|H]; [|apply IH; now right].
      cbn [char_in]. rewrite (IH x) by now left.
      assert (Ascii.eqb LF c = false) as ->
          by (apply Ascii.eqb_neq; congruence).
      reflexivity.
Qed.

Lemma strip_fixed (s : string) : rstrip_by isspace (strip s) = strip s.
Proof. apply rstrip_by_idempotent. Qed.

Lemma strip_empty (s : string) :
  strip s = "" <-> all_chars isspace s = true.
Proof.
  unfold strip. split; intros H.
  - rewrite <- lstrip_by_all. now apply rstrip_by_empty.
  - apply rstrip_by_all. now rewrite lstrip_by_all.
Qed.

(** The text appended for a bullet line is empty exactly when the trimmed
    line is made of hyphens and spaces only. *)
Lemma bullet_text_empty (line : string) :
  bullet_text line = "" <-> hollow (strip line) = true.
Proof.
  unfold bullet_text, hollow, lstrip.
  set (q := fun c => char_in c "- ").
  rewrite strip_empty, <- (lstrip_by_empty q).
  split; intros H.
  - apply (rstrip_by_fixed_all isspace); [|exact H].
    apply rstrip_by_fixed_lstrip, strip_fixed.
  - now rewrite H.
Qed.

Lemma nonempty_true (s : string) : nonempty s = true <-> s <> "".
Proof. destruct s; simpl; split; congruence. Qed.

(* ================================================================== *)
(** * The prompt *)

Section PromptFacts.

Variables job_type resume_text : string.

Lemma after_resume_text_markers :
  str_in "ATS Score:" after_resume_text = true
  /\ str_in "Suggestions:" after_resume_text = true.
Proof. split; reflexivity. Qed.

(** C8.  Whatever the job type and the resume text, the prompt holds both
    of them verbatim, and the two markers ["ATS Score:"] and
    ["Suggestions:"] of the expected output format.  (That the resume text
    is not empty plays no part.) *)
Theorem ats_prompt_holds_inputs_and_markers :
  substring job_type (ats_prompt job_type resume_text)
  /\ substring resume_text (ats_prompt job_type resume_text)
  /\ substring "ATS Score:" (ats_prompt job_type resume_text)
  /\ substring "Suggestions:" (ats_prompt job_type resume_text).
Proof.
  destruct after_resume_text_markers as [Hscore Hsugg].
  apply str_in_substring in Hscore, Hsugg.
  unfold ats_prompt. repeat split.
  - apply substring_skip, substring_here.
  - do 3 apply substring_skip. apply substring_here.
  - now do 4 apply substring_skip.
  - now do 4 apply substring_skip.
Qed.

End PromptFacts.

(* ================================================================== *)
(** * Facts on the rendering and reading of integers *)

Lemma string_of_uint_no_N (d : Decimal.uint) :
  char_in "N" (NilEmpty.string_of_uint d) = false.
Proof. induction d; simpl; auto. Qed.

Lemma str_of_int_no_N (n : Z) : char_in "N" (str_of_int n) = false.
Proof.
  unfold str_of_int.
  destruct (Z.to_int n) as [d|d]; simpl;
    destruct d; simpl; auto using string_of_uint_no_N.
Qed.

(** ["N/A" not in str(score)] holds of every integer score. *)
Lemma NA_not_in_str_of_int (n : Z) : str_in "N/A" (str_of_int n) = false.
Proof.
  destruct (str_in "N/A" (str_of_int n)) eqn:E; [|reflexivity].
  apply str_in_substring in E.
  apply (substring_char "N") in E; [|reflexivity].
  now rewrite str_of_int_no_N in E.
Qed.

Lemma digit_value_nonneg (c : ascii) :
  isdecimal c = true -> (0 <= digit_value c)%Z.
Proof.
  unfold isdecimal, digit_value. intros H.
  apply andb_true_iff in H as [H _]. apply N.leb_le in H.
  cbv zeta in H. lia.
Qed.

Lemma int_of_digits_from_nonneg (ds : string) (acc : Z) :
  (0 <= acc)%Z -> all_chars isdecimal ds = true ->
  (0 <= int_of_digits_from acc ds)%Z.
Proof.
  revert acc. induction ds as [|c ds IH];
    cbn [int_of_digits_from all_chars]; intros acc Hacc H; [exact Hacc|].
  apply andb_true_iff in H as [Hc Hds].
  apply IH; [|exact Hds]. pose proof (digit_value_nonneg _ Hc). lia.
Qed.

Lemma take_while_all (p : ascii -> bool) (s : string) :
  all_chars p (take_while p s) = true.
Proof.
  induction s as [|c s IH]; simpl; [reflexivity|].
  destruct (p c) eqn:E; simpl; [now rewrite E | reflexivity].
Qed.

Lemma re_match_score_digits (s digits : string) :
  re_match_score s = Some digits -> all_chars isdecimal digits = true.
Proof.
  unfold re_match_score.
  destruct (drop_prefix "ATS Score:" s) as [rest|]; [|discriminate].
  pose proof (take_while_all isdecimal (lstrip_by isspace rest)) as H.
  destruct (take_while isdecimal (lstrip_by isspace rest)); [discriminate|].
  now intros [= <-].
Qed.

Lemma re_search_score_digits (line digits : string) :
  re_search_score line = Some digits -> all_chars isdecimal digits = true.
Proof.
  induction line as [|c line IH].
  - discriminate.
  - change (re_search_score (String c line))
      with (match re_match_score (String c line) with
            | Some d => Some d
            | None => re_search_score line
            end).
    destruct (re_match_score (String c line)) eqn:E; [|exact IH].
    intros [= <-]. exact (re_match_score_digits _ _ E).
Qed.

(** The group of a match reads as an integer that is not negative. *)
Lemma re_search_score_nonneg (line digits : string) :
  re_search_score line = Some digits -> (0 <= int_of_digits digits)%Z.
Proof.
  intros H. apply int_of_digits_from_nonneg; [lia|].
  exact (re_search_score_digits _ _ H).
Qed.

(* ================================================================== *)
(** * The loop of the parser *)

(* ================================================================== *)
(** * The score pattern

    [re_match_score] and [re_search_score] against the reading of the
    pattern: the label, white space, digits; the longest run of each; the
    leftmost position. *)

Lemma drop_prefix_append (p t : string) :
  drop_prefix p (p ++ t)%string = Some t.
Proof.
  induction p as [|a p IH]; simpl; [now destruct t|].
  now rewrite Ascii.eqb_refl.
Qed.

Lemma drop_prefix_inv (p s t : string) :
  drop_prefix p s = Some t -> s = (p ++ t)%string.
Proof.
  revert s. induction p as [|a p IH]; intros s; simpl.
  - now intros [= ->].
  - destruct s as [|b s]; [discriminate|].
    destruct (Ascii.eqb_spec a b) as [->|]; [|discriminate].
    intros H. now rewrite (IH _ H).
Qed.

Lemma isdecimal_not_space (c : ascii) :
  isdecimal c = true -> isspace c = false.
Proof.
  unfold isdecimal, isspace. cbv zeta. intros H.
  apply andb_true_iff in H as [Hlo Hhi].
  apply N.leb_le in Hlo, Hhi.
  repeat match goal with
         | |- context [(?a <=? ?b)%N] => destruct (N.leb_spec a b)
         | |- context [(?a =? ?b)%N] => destruct (N.eqb_spec a b)
         end; simpl; try reflexivity; lia.
Qed.

Lemma re_match_score_spec (s digits : string) :
  re_match_score s = Some digits <->
  exists ws rest,
    s = ("ATS Score:" ++ ws ++ digits ++ rest)%string
    /\ all_chars isspace ws = true
    /\ all_chars isdecimal digits = true
    /\ digits <> ""%string
    /\ head_not isdecimal rest = true.
Proof.
  unfold re_match_score. split.
  - destruct (drop_prefix "ATS Score:" s) as [r|] eqn:Hp; [|discriminate].
    apply drop_prefix_inv in Hp.
    destruct (lstrip_by_decompose isspace r) as (Er & Hws & _).
    destruct (lstrip_by_decompose isdecimal (lstrip_by isspace r))
      as (Ed & Hds & Hrest).
    destruct (take_while isdecimal (lstrip_by isspace r)) as [|d ds] eqn:Et;
      [discriminate|].
    intros [= <-].
    exists (take_while isspace r), (lstrip_by isdecimal (lstrip_by isspace r)).
    rewrite <- Ed, <- Er. repeat split; trivial. discriminate.
  - intros (ws & rest & -> & Hws & Hds & Hne & Hrest).
    rewrite drop_prefix_append.
    destruct digits as [|d ds]; [congruence|].
    rewrite lstrip_by_append; trivial.
    + now rewrite take_while_append.
    + simpl in *. apply andb_true_iff in Hds as [Hd _].
      now rewrite (isdecimal_not_space _ Hd).
Qed.

(** Any way of reading the pattern at the start of [s], with the longest
    runs or not, makes [re_match_score] succeed. *)
Lemma re_match_score_complete (ws digits rest : string) :
  all_chars isspace ws = true -> all_chars isdecimal digits = true ->
  digits <> ""%string ->
  exists more,
    re_match_score ("ATS Score:" ++ ws ++ digits ++ rest)
    = Some (digits ++ more)%string.
Proof.
  intros Hws Hds Hne. unfold re_match_score.
  rewrite drop_prefix_append.
  destruct digits as [|d ds]; [congruence|].
  rewrite lstrip_by_append; trivial.
  - rewrite take_while_append_more by exact Hds.
    exists (take_while isdecimal rest). reflexivity.
  - simpl in *. apply andb_true_iff in Hds as [Hd _].
    now rewrite (isdecimal_not_space _ Hd).
Qed.

Lemma re_search_score_unfold (line : string) :
  re_search_score line =
  match re_match_score line with
  | Some digits => Some digits
  | None =>
      match line with
      | EmptyString => None
      | String _ line' => re_search_score line'
      end
  end.
Proof. destruct line; reflexivity. Qed.

(** [re_search_score] gives the group of the match at the leftmost position
    where the pattern matches. *)
Lemma re_search_score_spec (line digits : string) :
  re_search_score line = Some digits <->
  exists before after,
    line = (before ++ after)%string
    /\ re_match_score after = Some digits
    /\ (forall b1 b2, before = (b1 ++ b2)%string -> b2 <> ""%string ->
         re_match_score (b2 ++ after) = None).
Proof.
  split.
  - induction line as [|c line IH]; rewrite re_search_score_unfold.
    + discriminate.
    + destruct (re_match_score (String c line)) as [d|] eqn:E.
      * intros [= ->]. exists "", (String c line).
        repeat split; trivial.
        intros b1 b2 H. destruct b1; [simpl in H; congruence | discriminate].
      * intros H. destruct (IH H) as (before & after & -> & Hm & Hleft).
        exists (String c before), after. repeat split; trivial.
        intros [|x b1] b2 Hb Hne; simpl in Hb.
        -- now subst b2.
        -- injection Hb as _ Hb. now apply (Hleft b1).
  - intros (before & after & -> & Hm & Hleft).
    induction before as [|c before IH]; rewrite re_search_score_unfold.
    + simpl. now rewrite Hm.
    + rewrite (Hleft "" (String c before)) by (reflexivity || discriminate).
      simpl. apply IH. intros b1 b2 -> Hne.
      now apply (Hleft (String c b1)).
Qed.

(** The branches of the loop body for a line without the score pattern, in
    the order of the source: bullet, heading, lenient rule applied, lenient
    rule refused by the label, lenient rule refused by earlier suggestions,
    blank line. *)
Ltac branches line sugg :=
  destruct (startswith "-" (strip line));
  [ | destruct (str_in "Suggestions:" line);
      [ | destruct (nonempty (strip line)) eqn:?;
          [ destruct sugg;
            [ destruct (negb (str_in "ATS Score:" line)) | ] | ] ] ].

Section LoopFacts.

Variable max_str_digits : N.

Local Abbreviation next := (next_state max_str_digits).

(** The body of the loop never raises: the one exception that [int] can
    raise is the one that the handler catches. *)
Lemma loop_body_returns (st : state) (line : string) :
  loop_body max_str_digits st line = Returned (next st line).
Proof.
  unfold next_state, loop_body, int_of_str. destruct st as [score sugg].
  destruct (re_search_score line) as [digits|].
  - now destruct (int_too_long max_str_digits digits).
  - branches line sugg; reflexivity.
Qed.

Lemma for_lines_returns (lines : list string) (st : state) :
  for_lines max_str_digits lines st = Returned (fold_left next lines st).
Proof.
  revert st. induction lines as [|line rest IH]; intros st; simpl.
  - reflexivity.
  - rewrite loop_body_returns. simpl. apply IH.
Qed.

(** A line with a score that [int] accepts sets the score. *)
Lemma next_score_line (score : ats_score) (sugg : list string)
    (line digits : string) :
  re_search_score line = Some digits ->
  int_too_long max_str_digits digits = false ->
  next (score, sugg) line = (ScoreInt (int_of_digits digits), sugg).
Proof.
  intros Hre Hlen. unfold next_state, loop_body, int_of_str.
  now rewrite Hre, Hlen.
Qed.

(** The three things a line can do to the suggestions. *)
Lemma next_cases (score : ats_score) (sugg : list string) (line : string) :
  (is_bullet line = true
   /\ next (score, sugg) line = (score, sugg ++ [bullet_text line]))
  \/ (is_bullet line = false
      /\ exists score', next (score, sugg) line = (score', sugg))
  \/ (is_bullet line = false /\ sugg = [] /\ strip line <> ""
      /\ next (score, sugg) line = (score, [strip line])).
Proof.
  unfold next_state, loop_body, int_of_str, is_bullet, bullet_text.
  destruct (re_search_score line) as [digits|].
  - right; left. split; [reflexivity|].
    destruct (int_too_long max_str_digits digits); eauto.
  - branches line sugg;
      [ now left | right; left; eauto | | right; left; eauto ..].
    right; right. repeat split; trivial. now apply nonempty_true.
Qed.

(** A line without the score pattern leaves the score as it is. *)
Lemma next_keeps_score (st : state) (line : string) :
  re_search_score line = None -> fst (next st line) = fst st.
Proof.
  intros Hre. unfold next_state, loop_body. destruct st as [score sugg].
  rewrite Hre. branches line sugg; reflexivity.
Qed.

Lemma fold_next_keeps_score (lines : list string) (st : state) :
  (forall l, In l lines -> re_search_score l = None) ->
  fst (fold_left next lines st) = fst st.
Proof.
  revert st. induction lines as [|line rest IH]; intros st H; simpl.
  - reflexivity.
  - rewrite IH by (intros l Hl; apply H; now right).
    apply next_keeps_score, H. now left.
Qed.

Lemma next_score_ok (st : state) (line : string) :
  score_ok (fst st) -> score_ok (fst (next st line)).
Proof.
  intros Hok. destruct (re_search_score line) as [digits|] eqn:Hre.
  - unfold next_state, loop_body, int_of_str. destruct st as [score sugg].
    rewrite Hre.
    destruct (int_too_long max_str_digits digits); [exact Hok|].
    simpl. exact (re_search_score_nonneg _ _ Hre).
  - now rewrite next_keeps_score.
Qed.

Lemma fold_next_score_ok (lines : list string) (st : state) :
  score_ok (fst st) -> score_ok (fst (fold_left next lines st)).
Proof.
  revert st. induction lines as [|line rest IH]; intros st H; simpl.
  - exact H.
  - now apply IH, next_score_ok.
Qed.

(** The suggestions after the loop: what was there, at most one line taken
    by the lenient rule, and the texts of the bullet lines in their order. *)
Lemma fold_next_suggestions (lines : list string) (score : ats_score)
    (sugg : list string) :
  exists fb,
    snd (fold_left next lines (score, sugg))
    = sugg ++ fb ++ map bullet_text (filter is_bullet lines)
    /\ (sugg <> [] -> fb = [])
    /\ length fb <= 1
    /\ Forall (fun x => x <> ""%string) fb.
Proof.
  revert score sugg. induction lines as [|line rest IH]; intros score sugg.
  - exists []. simpl. rewrite app_nil_r. auto.
  - simpl fold_left. simpl filter.
    destruct (next_cases score sugg line)
      as [[Hb ->] | [[Hb [score' ->]] | (Hb & -> & Hne & ->)]]; rewrite Hb.
    + destruct (IH score (sugg ++ [bullet_text line])) as (fb & E & Hfb & _).
      rewrite Hfb in E by (now destruct sugg). exists []. rewrite E.
      simpl. rewrite <- app_assoc. auto.
    + apply IH.
    + destruct (IH score [strip line]) as (fb & E & Hfb & _).
      rewrite Hfb in E by discriminate. exists [strip line]. rewrite E.
      simpl. repeat split; auto. congruence.
Qed.

(** What [post_process] does to the two variables. *)
Lemma post_process_score (st : state) : atsScore (post_process st) = fst st.
Proof.
  destruct st as [score [|x sugg]]; simpl; [|reflexivity].
  now destruct (negb (str_in "N/A" (str_of_score score))).
Qed.

Lemma post_process_suggestions (st : state) :
  exists filler,
    suggestions (post_process st) = filler ++ snd st
    /\ (snd st <> [] -> filler = [])
    /\ length filler <= 1
    /\ Forall (fun x => x <> ""%string) filler.
Proof.
  destruct st as [score [|x sugg]]; simpl.
  - destruct (negb (str_in "N/A" (str_of_score score)));
      [exists [NO_SUGGESTIONS] | exists [NOT_PARSED]];
      (split; [reflexivity|]); (split; [congruence|]); (split; [simpl; lia|]);
      (constructor; [discriminate | constructor]).
  - exists []. auto.
Qed.

(** A reply that is a string goes through the loop and [post_process]
    unless it is empty. *)
Lemma parse_nonempty_string (s : string) :
  s <> ""%string ->
  parse_ats_response max_str_digits (JStr s)
  = Returned (post_process (fold_left next (split LF s) (ScoreNA, []))).
Proof.
  intros Hs. unfold parse_ats_response.
  destruct s as [|c s]; [congruence|].
  cbn [truthy nonempty negb]. now rewrite for_lines_returns.
Qed.

Lemma parse_empty_string :
  parse_ats_response max_str_digits (JStr "")
  = Returned (mkResult ScoreNA [NO_RESPONSE]).
Proof. reflexivity. Qed.

End LoopFacts.

Lemma post_process_nonempty (st : state) : suggestions (post_process st) <> [].
Proof.
  destruct st as [score [|x sugg]]; simpl; [|discriminate].
  destruct (negb (str_in "N/A" (str_of_score score))); discriminate.
Qed.

Lemma split_matching_line_nonempty (s : string) (pre post : list string)
    (l digits : string) :
  split LF s = pre ++ l :: post -> re_search_score l = Some digits ->
  s <> ""%string.
Proof.
  intros Hsplit Hre ->. simpl in Hsplit.
  destruct pre as [|x pre]; simpl in Hsplit.
  - injection Hsplit as <- _. discriminate.
  - injection Hsplit as _ H. now destruct pre.
Qed.

(* ================================================================== *)
(** * Properties of [parse_ats_response] *)

Section ParserProperties.

Variable max_str_digits : N.

Local Abbreviation next := (next_state max_str_digits).

(** C9.  On every string, however malformed, [parse_ats_response] raises
    nothing and returns a result that is well formed: at least one
    suggestion, and a score that is ["N/A"] or an integer that is not
    negative.  The function takes the reply and gives the result: no trace
    of requests or sleeps goes in or comes out, unlike
    [call_gemini_api_with_retry]. *)
Theorem parse_total_on_strings (s : string) :
  exists r,
    parse_ats_response max_str_digits (JStr s) = Returned r
    /\ suggestions r <> []
    /\ score_ok (atsScore r).
Proof.
  destruct (string_dec s "") as [->|Hs].
  - rewrite parse_empty_string. eexists.
    split; [reflexivity|]. split; [discriminate | exact I].
  - rewrite parse_nonempty_string by exact Hs. eexists.
    split; [reflexivity|]. split; [apply post_process_nonempty|].
    rewrite post_process_score. now apply fold_next_score_ok.
Qed.

(** C2.  On [None] and on every string, [parse_ats_response] returns a
    result whose list of suggestions has at least one element. *)
Theorem suggestions_never_empty :
  (exists r,
     parse_ats_response max_str_digits JNull = Returned r
     /\ suggestions r <> [])
  /\ (forall s : string,
        exists r,
          parse_ats_response max_str_digits (JStr s) = Returned r
          /\ suggestions r <> []).
Proof.
  split.
  - eexists. split; [reflexivity | discriminate].
  - intros s. destruct (string_dec s "") as [->|Hs].
    + rewrite parse_empty_string. eexists. split; [reflexivity | discriminate].
    + rewrite parse_nonempty_string by exact Hs.
      eexists. split; [reflexivity | apply post_process_nonempty].
Qed.

(** C3.  On [None], and on any other falsy value, [parse_ats_response]
    raises nothing and returns the sentinel: the score ["N/A"] and the one
    suggestion ["Could not get a response from AI."]. *)
Theorem unavailable_input_gives_sentinel (gemini_output : json) :
  truthy gemini_output = false ->
  parse_ats_response max_str_digits gemini_output
  = Returned (mkResult ScoreNA ["Could not get a response from AI."%string]).
Proof. intros H. unfold parse_ats_response. now rewrite H. Qed.

(** C1, as the code has it.  When a reply has lines that match the score
    pattern, the score returned is the integer of the LAST of them (given
    that [int] accepts its digits): each matching line overwrites the score
    of the matching lines before it. *)
Theorem last_score_line_wins (s : string) (pre post : list string)
    (l digits : string) :
  split LF s = pre ++ l :: post ->
  re_search_score l = Some digits ->
  int_too_long max_str_digits digits = false ->
  (forall l', In l' post -> re_search_score l' = None) ->
  exists r,
    parse_ats_response max_str_digits (JStr s) = Returned r
    /\ atsScore r = ScoreInt (int_of_digits digits).
Proof.
  intros Hsplit Hre Hlen Hpost.
  rewrite parse_nonempty_string
    by exact (split_matching_line_nonempty _ _ _ _ _ Hsplit Hre).
  eexists. split; [reflexivity|].
  rewrite post_process_score, Hsplit, fold_left_app. cbn [fold_left].
  rewrite fold_next_keeps_score by exact Hpost.
  destruct (fold_left next pre (ScoreNA, [])) as [score sugg].
  now rewrite (next_score_line _ _ _ _ _ Hre Hlen).
Qed.

(** C6, as the code has it.  The suggestions returned are at most one
    leading entry that is not empty (the line taken by the lenient rule, or
    a filler) followed by the texts of the bullet lines, in the order of the
    lines of the reply; the text of a bullet line is empty exactly when the
    trimmed line is made of hyphens and spaces only. *)
Theorem suggestions_shape (s : string) :
  exists r fb,
    parse_ats_response max_str_digits (JStr s) = Returned r
    /\ suggestions r = fb ++ map bullet_text (filter is_bullet (split LF s))
    /\ length fb <= 1
    /\ Forall (fun x => x <> ""%string) fb
    /\ (forall line,
          bullet_text line = ""%string <-> hollow (strip line) = true).
Proof.
  destruct (string_dec s "") as [->|Hs].
  - rewrite parse_empty_string.
    exists (mkResult ScoreNA [NO_RESPONSE]), [NO_RESPONSE].
    split; [reflexivity|]. split; [reflexivity|]. split; [simpl; lia|].
    split; [|exact bullet_text_empty].
    constructor; [discriminate | constructor].
  - rewrite parse_nonempty_string by exact Hs.
    destruct (fold_next_suggestions max_str_digits (split LF s) ScoreNA [])
      as (fb & E & _ & Hlen & Hne).
    destruct (post_process_suggestions
                (fold_left next (split LF s) (ScoreNA, [])))
      as (filler & E' & Hfill & Hlen' & Hne').
    rewrite E in E', Hfill. simpl in E', Hfill.
    eexists. exists (filler ++ fb). split; [reflexivity|].
    split; [now rewrite E', app_assoc|].
    split; [|split; [now apply Forall_app | exact bullet_text_empty]].
    destruct fb as [|x fb]; [now rewrite app_nil_r|].
    rewrite Hfill by discriminate. exact Hlen.
Qed.

(** C7, as the code has it.  For a reply that is not empty and in which the
    loop collects no suggestion: when the loop found an integer score, the
    result has that score and the one keyword filler; when it found none,
    the result has ["N/A"] and the one could-not-parse filler; the two
    fillers are different texts. *)
Theorem fillers_when_nothing_collected (s : string) (score : ats_score) :
  s <> ""%string ->
  for_lines max_str_digits (split LF s) (ScoreNA, []) = Returned (score, []) ->
  parse_ats_response max_str_digits (JStr s)
  = Returned (mkResult score
                [match score with
                 | ScoreInt _ => NO_SUGGESTIONS
                 | ScoreNA => NOT_PARSED
                 end])
  /\ NO_SUGGESTIONS <> NOT_PARSED.
Proof.
  intros Hs Hloop. split; [|discriminate].
  unfold parse_ats_response. destruct s as [|c s]; [congruence|].
  cbn [truthy nonempty negb]. rewrite Hloop. cbn [bind post_process].
  destruct score as [|n]; [reflexivity|].
  cbn [str_of_score]. now rewrite NA_not_in_str_of_int.
Qed.

End ParserProperties.

Lemma unavailable_input_gives_sentinel_witness :
  truthy JNull = false
  /\ parse_ats_response DEFAULT_MAX_STR_DIGITS JNull
     = Returned (mkResult ScoreNA ["Could not get a response from AI."%string]).
Proof.
  split; [reflexivity|].
  exact (unavailable_input_gives_sentinel DEFAULT_MAX_STR_DIGITS JNull eq_refl).
Defined.

(** C1 fails as stated: with the scores 10 and 20 on two lines, the first
    matching line holds 10 and the score returned is 20. *)
Lemma first_score_line_does_not_win :
  split LF ("ATS Score: 10" ++ nl ++ "ATS Score: 20")
  = ["ATS Score: 10"; "ATS Score: 20"]%string
  /\ re_search_score "ATS Score: 10" = Some "10"%string
  /\ re_search_score "ATS Score: 20" = Some "20"%string
  /\ parse_ats_response DEFAULT_MAX_STR_DIGITS
       (JStr ("ATS Score: 10" ++ nl ++ "ATS Score: 20"))
     = Returned (mkResult (ScoreInt 20) [NO_SUGGESTIONS])
  /\ ScoreInt 20 <> ScoreInt 10.
Proof. repeat split; try reflexivity. discriminate. Qed.

Lemma last_score_line_wins_witness :
  exists r,
    parse_ats_response DEFAULT_MAX_STR_DIGITS
      (JStr ("ATS Score: 10" ++ nl ++ "ATS Score: 20")) = Returned r
    /\ atsScore r = ScoreInt 20.
Proof.
  apply (last_score_line_wins DEFAULT_MAX_STR_DIGITS
           ("ATS Score: 10" ++ nl ++ "ATS Score: 20")
           ["ATS Score: 10"%string] [] "ATS Score: 20" "20");
    [reflexivity | reflexivity | reflexivity | intros l' []].
Defined.

(** C6 fails as stated: a line that is a lone hyphen gives an empty
    suggestion. *)
Lemma lone_hyphen_gives_empty_suggestion :
  parse_ats_response DEFAULT_MAX_STR_DIGITS
    (JStr ("ATS Score: 82/100" ++ nl ++ "Suggestions:" ++ nl
           ++ "- Add keywords" ++ nl ++ "-" ++ nl ++ "- Fix formatting"))
  = Returned (mkResult (ScoreInt 82)
                ["Add keywords"; ""; "Fix formatting"]%string)
  /\ In ""%string ["Add keywords"; ""; "Fix formatting"]%string.
Proof. split; [reflexivity | simpl; auto]. Qed.

(** C7 fails as stated on the empty reply: the loop would collect nothing
    and find no score, and the result holds the no-response message, not
    the could-not-parse filler. *)
Lemma empty_reply_gets_no_response_message :
  for_lines DEFAULT_MAX_STR_DIGITS (split LF "") (ScoreNA, [])
  = Returned (ScoreNA, [])
  /\ parse_ats_response DEFAULT_MAX_STR_DIGITS (JStr "")
     = Returned (mkResult ScoreNA [NO_RESPONSE])
  /\ NO_RESPONSE <> NOT_PARSED.
Proof. repeat split; try reflexivity. discriminate. Qed.

Lemma fillers_when_nothing_collected_witness :
  ("ATS Score: 70/100" <> "")%string
  /\ for_lines DEFAULT_MAX_STR_DIGITS (split LF "ATS Score: 70/100") (ScoreNA, [])
     = Returned (ScoreInt 70, [])
  /\ parse_ats_response DEFAULT_MAX_STR_DIGITS (JStr "ATS Score: 70/100")
     = Returned (mkResult (ScoreInt 70) [NO_SUGGESTIONS])
  /\ NO_SUGGESTIONS <> NOT_PARSED.
Proof.
  split; [discriminate|]. split; [reflexivity|].
  apply (fillers_when_nothing_collected DEFAULT_MAX_STR_DIGITS
           "ATS Score: 70/100" (ScoreInt 70)); [discriminate | reflexivity].
Defined.

(* ================================================================== *)
(** * Properties of [call_gemini_api_with_retry] *)

Lemma posts_app (w1 w2 : world) : posts (w1 ++ w2) = posts w1 + posts w2.
Proof. unfold posts. now rewrite filter_app, length_app. Qed.

Lemma posts_after_request (w : world) (prompt : string) (d : N) :
  posts ((w ++ [Post prompt]) ++ [Sleep d]) = S (posts w).
Proof. rewrite !posts_app. unfold posts at 2 3. simpl. lia. Qed.

Lemma posts_cons_request (w : world) (prompt : string) (d : N) :
  posts ([Post prompt; Sleep d] ++ w) = S (posts w).
Proof. reflexivity. Qed.

Lemma posts_nonempty (w : world) (n : nat) : posts w = S n -> w <> [].
Proof. now intros H ->. Qed.

Lemma slept_app (w1 w2 : world) : slept (w1 ++ w2) = (slept w1 + slept w2)%N.
Proof.
  induction w1 as [|e w1 IH]; simpl; [reflexivity|].
  destruct e; [exact IH | rewrite IH; lia].
Qed.

Lemma pow2_sum_closed (i n : nat) :
  (pow2_sum i n + 2 ^ N.of_nat i = 2 ^ N.of_nat (i + n))%N.
Proof.
  revert i. induction n as [|n IH]; intros i; simpl.
  - now rewrite Nat.add_0_r.
  - specialize (IH (S i)).
    replace (i + S n) with (S i + n) by lia. rewrite <- IH.
    rewrite Nat2N.inj_succ, N.pow_succ_r'. lia.
Qed.

Lemma ends_with_post_after (prompt : string) (w1 w2 : world) :
  w2 <> [] -> ends_with_post prompt w2 -> ends_with_post prompt (w1 ++ w2).
Proof.
  intros Hne [->|[w' ->]]; [congruence|].
  right. exists (w1 ++ w'). now rewrite app_assoc.
Qed.

Section ClientProperties.

Variable transport : nat -> response.
Variable prompt : string.
Variable max_retries : nat.
Variable initial_delay : N.

Local Abbreviation loop := (retry_loop transport prompt max_retries initial_delay).

(** The loop from iteration [i] on, when every request fails. *)
Lemma retry_loop_all_fail (todo i : nat) (w : world) :
  posts w = i -> i + todo = max_retries ->
  (forall k, k < max_retries -> transport k = RequestException) ->
  exists w',
    loop todo i w = (Returned JNull, w ++ w')
    /\ posts w' = todo
    /\ slept w' = (initial_delay * pow2_sum i (todo - 1))%N
    /\ ends_with_post prompt w'.
Proof.
  revert i w. induction todo as [|todo IH]; intros i w Hposts Hsum Hfail.
  - exists []. simpl. rewrite app_nil_r, N.mul_0_r. repeat split. now left.
  - cbn [retry_loop]. rewrite Hposts, Hfail by lia.
    destruct (Z.ltb_spec (Z.of_nat i) (Z.of_nat max_retries - 1)) as [Hlt|Hge].
    + destruct (IH (S i) ((w ++ [Post prompt]) ++ [Sleep (initial_delay * 2 ^ N.of_nat i)]))
        as (w' & E & Hp & Hs & He); [|lia|exact Hfail|].
      { now rewrite posts_after_request, Hposts. }
      exists ([Post prompt; Sleep (initial_delay * 2 ^ N.of_nat i)] ++ w').
      rewrite E, <- !app_assoc. split; [reflexivity|].
      split; [now rewrite posts_cons_request, Hp|].
      split.
      * rewrite slept_app, Hs. destruct todo as [|todo']; [lia|].
        simpl. rewrite Nat.sub_0_r. lia.
      * apply ends_with_post_after; [|exact He].
        destruct todo as [|todo']; [lia | exact (posts_nonempty _ _ Hp)].
    + assert (todo = 0) as -> by lia.
      exists [Post prompt]. simpl. rewrite N.mul_0_r. repeat split.
      right. now exists [].
Qed.

(** The loop from iteration [i] on, when the requests fail up to request
    [k], whose body is decoded: the call ends there with what the body
    gives, after [k - i] sleeps and no sleep or request more. *)
Lemma retry_loop_until_body (k : nat) (result : json) (todo i : nat) (w : world) :
  posts w = i -> i + todo = max_retries -> i <= k < max_retries ->
  (forall j, i <= j < k -> transport j = RequestException) ->
  transport k = JsonBody result ->
  exists w',
    loop todo i w = (on_body result, w ++ w')
    /\ posts w' = S (k - i)
    /\ slept w' = (initial_delay * pow2_sum i (k - i))%N
    /\ ends_with_post prompt w'.
Proof.
  revert i w. induction todo as [|todo IH]; intros i w Hposts Hsum Hk Hfail Hbody.
  - lia.
  - cbn [retry_loop]. rewrite Hposts.
    destruct (Nat.eq_dec i k) as [->|Hne].
    + rewrite Hbody. exists [Post prompt].
      rewrite Nat.sub_diag. simpl. rewrite N.mul_0_r. repeat split.
      right. now exists [].
    + rewrite Hfail by lia.
      destruct (Z.ltb_spec (Z.of_nat i) (Z.of_nat max_retries - 1)) as [Hlt|Hge];
        [|lia].
      destruct (IH (S i) ((w ++ [Post prompt]) ++ [Sleep (initial_delay * 2 ^ N.of_nat i)]))
        as (w' & E & Hp & Hs & He); [|lia|lia| |exact Hbody|].
      { now rewrite posts_after_request, Hposts. }
      { intros j Hj. apply Hfail. lia. }
      exists ([Post prompt; Sleep (initial_delay * 2 ^ N.of_nat i)] ++ w').
      rewrite E, <- !app_assoc. split; [reflexivity|].
      split; [rewrite posts_cons_request, Hp; lia|].
      split.
      * rewrite slept_app, Hs. replace (k - i) with (S (k - S i)) by lia.
        simpl. lia.
      * apply ends_with_post_after; [|exact He].
        exact (posts_nonempty _ _ Hp).
Qed.

(** C4.  When every request fails, the call sends exactly [max_retries]
    requests and returns [None]; the sleeps add up to
    [initial_delay * (2^0 + ... + 2^(max_retries - 2))], and the trace does
    not end with a sleep. *)
Theorem all_requests_fail :
  (forall k, k < max_retries -> transport k = RequestException) ->
  exists w,
    call_gemini_api_with_retry transport prompt max_retries initial_delay []
    = (Returned JNull, w)
    /\ posts w = max_retries
    /\ slept w = (initial_delay * pow2_sum 0 (max_retries - 1))%N
    /\ ends_with_post prompt w.
Proof.
  intros Hfail.
  destruct (retry_loop_all_fail max_retries 0 []) as (w & E & H);
    [reflexivity | reflexivity | exact Hfail |].
  exists w. split; [exact E | exact H].
Qed.

(** What holds of C5: a decoded body whose condition evaluates to a falsy
    value ends the call at once with [None]. *)
Lemma body_without_text_returns_none (k : nat) (result c : json) :
  k < max_retries ->
  (forall j, j < k -> transport j = RequestException) ->
  transport k = JsonBody result ->
  has_text result = Returned c -> truthy c = false ->
  exists w,
    call_gemini_api_with_retry transport prompt max_retries initial_delay []
    = (Returned JNull, w)
    /\ posts w = S k
    /\ slept w = (initial_delay * pow2_sum 0 k)%N
    /\ ends_with_post prompt w.
Proof.
  intros Hk Hfail Hbody Hcond Hfalsy.
  destruct (retry_loop_until_body k result max_retries 0 [])
    as (w & E & Hp & Hs & He);
    [reflexivity | reflexivity | lia | intros j Hj; apply Hfail; lia
    | exact Hbody |].
  exists w. rewrite Nat.sub_0_r in Hp, Hs.
  unfold call_gemini_api_with_retry. rewrite E.
  unfold on_body. rewrite Hcond. cbn [bind]. rewrite Hfalsy. auto.
Qed.

End ClientProperties.

Lemma all_requests_fail_witness :
  exists w,
    call_gemini_api_with_retry (fun _ => RequestException) "prompt" 5 1 []
    = (Returned JNull, w)
    /\ posts w = 5
    /\ slept w = (1 * pow2_sum 0 (5 - 1))%N
    /\ ends_with_post "prompt" w.
Proof.
  apply (all_requests_fail (fun _ => RequestException) "prompt" 5 1).
  intros k _. reflexivity.
Defined.

(** The same call, evaluated: five requests, sleeps of 1, 2, 4 and 8. *)
Example all_requests_fail_trace :
  call_gemini_api_with_retry (fun _ => RequestException) "prompt" 5 1 []
  = (Returned JNull,
     [Post "prompt"; Sleep 1; Post "prompt"; Sleep 2; Post "prompt";
      Sleep 4; Post "prompt"; Sleep 8; Post "prompt"]).
Proof. reflexivity. Qed.

(** C5 fails on the code: a body that lacks the text because a value on the
    path is of another type (here the first candidate is a string) makes
    the condition itself raise, and the call raises [AttributeError] in
    place of returning [None]; it still sends one request and never
    sleeps. *)
Theorem body_with_wrong_type_raises :
  call_gemini_api_with_retry
    (fun _ => JsonBody (JObj [("candidates"%string, JArr [JStr "blocked"])]))
    "prompt" 5 1 []
  = (Raised AttributeError, [Post "prompt"]).
Proof. reflexivity. Qed.

(* ================================================================== *)
(** * The functions on sample inputs *)

(** The reply in the format that the prompt asks for. *)
Example parse_expected_format :
  parse_ats_response DEFAULT_MAX_STR_DIGITS
    (JStr ("ATS Score: 82/100" ++ nl ++ "Suggestions:" ++ nl
           ++ "- Add keywords" ++ nl ++ "- Fix formatting"))
  = Returned (mkResult (ScoreInt 82)
                ["Add keywords"; "Fix formatting"]%string).
Proof. reflexivity. Qed.

(** The lenient rule takes the first plain line and drops the later ones. *)
Example parse_lenient_rule :
  parse_ats_response DEFAULT_MAX_STR_DIGITS
    (JStr ("ATS Score: 60/100" ++ nl ++ "Add more keywords" ++ nl
           ++ "Thank you for asking."))
  = Returned (mkResult (ScoreInt 60) ["Add more keywords"%string]).
Proof. reflexivity. Qed.

(** A line with the label and no digits sets no score and is no suggestion. *)
Example parse_label_without_digits :
  parse_ats_response DEFAULT_MAX_STR_DIGITS (JStr "ATS Score: high")
  = Returned (mkResult ScoreNA [NOT_PARSED]).
Proof. reflexivity. Qed.

(** A truthy reply that is not a string has no [split]. *)
Example parse_non_string :
  parse_ats_response DEFAULT_MAX_STR_DIGITS (JInt 5) = Raised AttributeError.
Proof. reflexivity. Qed.

(** A body with the text: the text is returned after the one request. *)
Example call_first_request_succeeds :
  call_gemini_api_with_retry
    (fun _ =>
       JsonBody
         (JObj [("candidates"%string,
                 JArr [JObj [("content"%string,
                              JObj [("parts"%string,
                                     JArr [JObj [("text"%string,
                                                  JStr "ATS Score: 70/100")]])])]])]))
    "prompt" 5 1 []
  = (Returned (JStr "ATS Score: 70/100"), [Post "prompt"]).
Proof. reflexivity. Qed.

(** Two failures, then a body without candidates: [None] after three
    requests and sleeps of 1 and 2. *)
Example call_third_request_soft_failure :
  call_gemini_api_with_retry
    (fun k => if Nat.ltb k 2 then RequestException else JsonBody (JObj []))
    "prompt" 5 1 []
  = (Returned JNull,
     [Post "prompt"; Sleep 1; Post "prompt"; Sleep 2; Post "prompt"]).
Proof. reflexivity. Qed.

(* ================================================================== *)
(** * Beyond the pipeline: more on the client and the parser *)

Import ClientSpec ParserSpec.

(* ================================================================== *)
(** * More on [call_gemini_api_with_retry] *)

Lemma bind_returned {A B : Type} (r : outcome A) (k : A -> outcome B) (y : B) :
  bind r k = Returned y -> exists x, r = Returned x /\ k x = Returned y.
Proof. destruct r as [x|e]; simpl; [eauto | discriminate]. Qed.

Lemma and_truthy (a b : outcome json) (c : json) :
  and_ a b = Returned c -> truthy c = true ->
  (exists v, a = Returned v /\ truthy v = true) /\ b = Returned c.
Proof.
  unfold and_. destruct a as [v|e]; [|discriminate].
  destruct (truthy v) eqn:Hv.
  - intros -> _. eauto.
  - intros [= <-] Hc. congruence.
Qed.

Lemma get_truthy (k : string) (v c : json) :
  get k v = Returned c -> truthy c = true ->
  exists members, v = JObj members /\ lookup k members = Some c.
Proof.
  destruct v; simpl; try discriminate.
  destruct (lookup k members) as [x|] eqn:E.
  - intros [= ->] _. eauto.
  - intros [= <-]. discriminate.
Qed.

Lemma lookup_nonempty (k : string) (members : list (string * json)) (c : json) :
  lookup k members = Some c -> truthy (JObj members) = true.
Proof. now destruct members. Qed.

(** When the condition on the body gives a truthy value, the expression of
    the [return] gives the same value and does not raise. *)
Lemma has_text_text_of (result c : json) :
  has_text result = Returned c -> truthy c = true ->
  text_of result = Returned c /\ text_at result c.
Proof.
  unfold has_text, text_of. intros H Hc.
  apply and_truthy in H as [_ H]; [|exact Hc].
  apply and_truthy in H as [(c1 & H1 & T1) H]; [|exact Hc].
  apply and_truthy in H as [(c2 & H2 & T2) H]; [|exact Hc].
  apply and_truthy in H as [(c3 & H3 & T3) H]; [|exact Hc].
  destruct (get_truthy _ _ _ H1 T1) as (m1 & -> & L1).
  cbn [getitem] in *. rewrite L1 in *. cbn [bind] in *.
  apply bind_returned in H2 as (v2 & I2 & G2).
  rewrite I2 in *. cbn [bind] in *.
  destruct (get_truthy _ _ _ G2 T2) as (m2 & -> & L2).
  cbn [getitem] in *. rewrite L2 in *. cbn [bind] in *.
  destruct (get_truthy _ _ _ H3 T3) as (m3 & -> & L3).
  cbn [getitem] in *. rewrite L3 in *. cbn [bind] in *.
  apply bind_returned in H as (v5 & I5 & G5).
  rewrite I5. cbn [bind].
  destruct (get_truthy _ _ _ G5 Hc) as (m4 & -> & L4).
  cbn [getitem]. rewrite L4. split; [reflexivity|].
  destruct c1 as [| | | | s |[|x cs]|]; try discriminate;
    [destruct s; discriminate | injection I2 as ->].
  destruct c3 as [| | | | s |[|x ps]|]; try discriminate;
    [destruct s; discriminate | injection I5 as ->].
  exists m1, m2, m3, m4, cs, ps. auto.
Qed.

(** A body with a truthy text on the path: the text is what the statements
    of the [try] return. *)
Lemma on_body_text (result t : json) :
  text_at result t -> truthy t = true -> on_body result = Returned t.
Proof.
  intros (m1 & m2 & m3 & m4 & cs & ps & -> & L1 & L2 & L3 & L4) Ht.
  destruct m1 as [|p1 m1]; [discriminate|].
  destruct m2 as [|p2 m2]; [discriminate|].
  destruct m3 as [|p3 m3]; [discriminate|].
  unfold on_body, has_text, text_of, and_.
  repeat (cbn [bind item0 truthy get getitem]; rewrite ?L1, ?L2, ?L3, ?L4, ?Ht).
  reflexivity.
Qed.

(** What the statements of the [try] return is [None] or truthy, and the
    truthy value is the text on the path. *)
Lemma on_body_returned (result v : json) :
  on_body result = Returned v ->
  v = JNull \/ (truthy v = true /\ text_at result v).
Proof.
  unfold on_body. intros H.
  apply bind_returned in H as (c & Hc & H).
  destruct (truthy c) eqn:T.
  - destruct (has_text_text_of _ _ Hc T) as [E Hat].
    rewrite E in H. injection H as <-. auto.
  - injection H as <-. auto.
Qed.

Lemma item0_truthy (v : json) :
  truthy v = true -> item0 v <> Raised IndexError /\ item0 v <> Raised ValueError.
Proof.
  destruct v as [| | | | s |[|x l]|]; simpl; try discriminate;
    try (split; discriminate).
  destruct s; [discriminate | split; discriminate].
Qed.

(** The statements of the [try] raise [AttributeError], [KeyError] or
    [TypeError] and nothing else. *)
Lemma on_body_raised (result : json) (e : exn) :
  on_body result = Raised e ->
  e = AttributeError \/ e = KeyError \/ e = TypeError.
Proof.
  unfold on_body.
  destruct (has_text result) as [c|e'] eqn:Hc; cbn [bind].
  - destruct (truthy c) eqn:T; [|discriminate].
    destruct (has_text_text_of _ _ Hc T) as [-> _]. discriminate.
  - intros [= ->]. revert Hc. unfold has_text, and_.
    destruct (truthy result) eqn:T0; [|discriminate].
    destruct result as [| | | | |l|m1]; cbn [get];
      try (intros [= <-]; auto).
    destruct (lookup "candidates" m1) as [c1|] eqn:L1; [|discriminate].
    cbn [getitem]. rewrite L1. cbn [bind].
    destruct (truthy c1) eqn:T1; [|discriminate].
    destruct (item0 c1) as [v2|e2] eqn:I2; cbn [bind].
    2:{ intros [= <-].
        destruct c1 as [| | | | s |[|x l]|]; simpl in *; try discriminate;
          try (injection I2 as <-; auto).
        destruct s; discriminate. }
    destruct v2 as [| | | | |l|m2]; cbn [get];
      try (intros [= <-]; auto).
    destruct (lookup "content" m2) as [c2|] eqn:L2; [|discriminate].
    cbn [getitem]. rewrite L2. cbn [bind].
    destruct (truthy c2) eqn:T2; [|discriminate].
    destruct c2 as [| | | | |l|m3]; cbn [get];
      try (intros [= <-]; auto).
    destruct (lookup "parts" m3) as [c3|] eqn:L3; [|discriminate].
    cbn [getitem]. rewrite L3. cbn [bind].
    destruct (truthy c3) eqn:T3; [|discriminate].
    destruct (item0 c3) as [v5|e5] eqn:I5; cbn [bind].
    2:{ intros [= <-].
        destruct c3 as [| | | | s |[|x l]|]; simpl in *; try discriminate;
          try (injection I5 as <-; auto).
        destruct s; discriminate. }
    destruct v5 as [| | | | |l|m4]; cbn [get];
      try (intros [= <-]; auto).
    destruct (lookup "text" m4); discriminate.
Qed.

Lemma posts_backoff_trace (prompt : string) (d : N) (n i : nat) :
  posts (backoff_trace prompt d i n) = n.
Proof.
  revert i. induction n as [|n IH]; intros i; [reflexivity|].
  cbn [backoff_trace]. destruct n as [|n]; [reflexivity|].
  change (posts (Post prompt :: Sleep (d * 2 ^ N.of_nat i)
                 :: backoff_trace prompt d (S i) (S n)))
    with (S (posts (backoff_trace prompt d (S i) (S n)))).
  now rewrite IH.
Qed.

Lemma slept_backoff_trace (prompt : string) (d : N) (n i : nat) :
  slept (backoff_trace prompt d i n) = (d * pow2_sum i (n - 1))%N.
Proof.
  revert i. induction n as [|n IH]; intros i; [simpl; lia|].
  cbn [backoff_trace]. destruct n as [|n]; [simpl; lia|].
  change (slept (Post prompt :: Sleep (d * 2 ^ N.of_nat i)
                 :: backoff_trace prompt d (S i) (S n)))
    with (d * 2 ^ N.of_nat i + slept (backoff_trace prompt d (S i) (S n)))%N.
  rewrite IH. replace (S (S n) - 1) with (S (S n - 1)) by lia.
  cbn [pow2_sum]. lia.
Qed.

Lemma pow2_sum_le (i n n' : nat) :
  n <= n' -> (pow2_sum i n <= pow2_sum i n')%N.
Proof.
  revert i n'. induction n as [|n IH]; intros i n' H; [simpl; lia|].
  destruct n' as [|n']; [lia|]. simpl.
  specialize (IH (S i) n'). lia.
Qed.

Section RetryLoop.

Variable transport : nat -> response.
Variable prompt : string.
Variable max_retries : nat.
Variable initial_delay : N.

Local Abbreviation loop :=
  (retry_loop transport prompt max_retries initial_delay).

(** The trace of the loop from iteration [i] on, whatever the requests
    give. *)
Lemma retry_loop_trace (todo i : nat) (w : world) :
  i + todo = max_retries ->
  exists n,
    n <= todo /\ (0 < todo -> 0 < n)
    /\ snd (loop todo i w) = w ++ backoff_trace prompt initial_delay i n.
Proof.
  revert i w. induction todo as [|todo IH]; intros i w Hsum.
  - exists 0. simpl. rewrite app_nil_r. repeat split; lia.
  - cbn [retry_loop]. destruct (transport (posts w)) as [|result|e].
    + destruct (Z.ltb_spec (Z.of_nat i) (Z.of_nat max_retries - 1))
        as [Hlt|Hge].
      * destruct (IH (S i)
                    ((w ++ [Post prompt])
                     ++ [Sleep (initial_delay * 2 ^ N.of_nat i)]))
          as (n & Hn & Hpos & E); [lia|].
        exists (S n). rewrite E, <- !app_assoc.
        destruct n as [|n]; [lia|]. repeat split; try lia; try reflexivity.
      * exists 1. repeat split; try lia; try reflexivity.
    + exists 1. repeat split; try lia; try reflexivity.
    + exists 1. repeat split; try lia; try reflexivity.
Qed.

(** What the loop gives from iteration [i] on, the requests before having
    failed with a [RequestException]: [None]; or what the first decoded
    body gives; or the exception, no [RequestException], of a request. *)
Lemma retry_loop_result (todo i : nat) (w : world) :
  posts w = i -> i + todo = max_retries ->
  fst (loop todo i w) = Returned JNull
  \/ (exists k result,
        i <= k < max_retries
        /\ (forall j, i <= j < k -> transport j = RequestException)
        /\ transport k = JsonBody result
        /\ fst (loop todo i w) = on_body result)
  \/ (exists k e,
        i <= k < max_retries
        /\ (forall j, i <= j < k -> transport j = RequestException)
        /\ transport k = OtherException e
        /\ fst (loop todo i w) = Raised e).
Proof.
  revert i w. induction todo as [|todo IH]; intros i w Hposts Hsum.
  - now left.
  - cbn [retry_loop]. rewrite Hposts.
    destruct (transport i) as [|result|e] eqn:Hi.
    + destruct (Z.ltb_spec (Z.of_nat i) (Z.of_nat max_retries - 1))
        as [Hlt|Hge]; [|now left].
      destruct (IH (S i)
                  ((w ++ [Post prompt])
                   ++ [Sleep (initial_delay * 2 ^ N.of_nat i)]))
        as [E|[(k & result & Hk & Hfail & Hbody & E)
              |(k & e & Hk & Hfail & Hexn & E)]];
        [now rewrite posts_after_request, Hposts | lia | now left | |].
      * right; left. exists k, result.
        split; [lia|]. split; [|split; [exact Hbody | exact E]].
        intros j Hj. destruct (Nat.eq_dec j i) as [->|]; [exact Hi|].
        apply Hfail. lia.
      * right; right. exists k, e.
        split; [lia|]. split; [|split; [exact Hexn | exact E]].
        intros j Hj. destruct (Nat.eq_dec j i) as [->|]; [exact Hi|].
        apply Hfail. lia.
    + right; left. exists i, result.
      split; [lia|]. split; [|split; [exact Hi | reflexivity]].
      intros j Hj. lia.
    + right; right. exists i, e.
      split; [lia|]. split; [|split; [exact Hi | reflexivity]].
      intros j Hj. lia.
Qed.

(** The trace of a call. *)
Lemma call_trace :
  exists n,
    n <= max_retries
    /\ snd (call_gemini_api_with_retry transport prompt max_retries
              initial_delay [])
       = backoff_trace prompt initial_delay 0 n.
Proof.
  destruct (retry_loop_trace max_retries 0 []) as (n & Hn & _ & E);
    [reflexivity|].
  exists n. split; [exact Hn | exact E].
Qed.

(** The result of a call. *)
Lemma call_result :
  fst (call_gemini_api_with_retry transport prompt max_retries
         initial_delay []) = Returned JNull
  \/ (exists k result,
        k < max_retries
        /\ (forall j, j < k -> transport j = RequestException)
        /\ transport k = JsonBody result
        /\ fst (call_gemini_api_with_retry transport prompt max_retries
                  initial_delay []) = on_body result)
  \/ (exists k e,
        k < max_retries
        /\ (forall j, j < k -> transport j = RequestException)
        /\ transport k = OtherException e
        /\ fst (call_gemini_api_with_retry transport prompt max_retries
                  initial_delay []) = Raised e).
Proof.
  destruct (retry_loop_result max_retries 0 [])
    as [E|[(k & result & Hk & Hfail & Hbody & E)
          |(k & e & Hk & Hfail & Hexn & E)]];
    [reflexivity | reflexivity | now left | |].
  - right; left. exists k, result.
    split; [lia|]. split; [|split; [exact Hbody | exact E]].
    intros j Hj. apply Hfail. lia.
  - right; right. exists k, e.
    split; [lia|]. split; [|split; [exact Hexn | exact E]].
    intros j Hj. apply Hfail. lia.
Qed.

(** X1.  Whatever the transport does, the trace of a call is requests that
    alternate with sleeps of [initial_delay * 2^i], at most [max_retries]
    requests, no sleep last; so the sleeps add up to at most
    [initial_delay * (2^0 + ... + 2^(max_retries - 2))]. *)
Theorem call_trace_is_backoff :
  exists n,
    n <= max_retries
    /\ snd (call_gemini_api_with_retry transport prompt max_retries
              initial_delay [])
       = backoff_trace prompt initial_delay 0 n
    /\ posts (backoff_trace prompt initial_delay 0 n) = n
    /\ (slept (backoff_trace prompt initial_delay 0 n)
        <= initial_delay * pow2_sum 0 (max_retries - 1))%N.
Proof.
  destruct call_trace as (n & Hn & E).
  exists n. split; [exact Hn|]. split; [exact E|].
  split; [apply posts_backoff_trace|].
  rewrite slept_backoff_trace. apply N.mul_le_mono_l, pow2_sum_le. lia.
Qed.

(** When the requests fail up to request [k], whose body is decoded, the
    call ends with what the body gives, after [k + 1] requests. *)
Lemma call_first_body (k : nat) (result : json) :
  k < max_retries ->
  (forall j, j < k -> transport j = RequestException) ->
  transport k = JsonBody result ->
  call_gemini_api_with_retry transport prompt max_retries initial_delay []
  = (on_body result, backoff_trace prompt initial_delay 0 (S k)).
Proof.
  intros Hk Hfail Hbody.
  destruct (retry_loop_until_body transport prompt max_retries initial_delay
              k result max_retries 0 [])
    as (w & E & Hp & _);
    [reflexivity | reflexivity | lia | intros j Hj; apply Hfail; lia
    | exact Hbody |].
  destruct (retry_loop_trace max_retries 0 []) as (n & _ & _ & E');
    [reflexivity|].
  unfold call_gemini_api_with_retry. fold loop.
  rewrite E in E' |- *. cbn [snd app] in E'. f_equal.
  rewrite E' in Hp |- *. rewrite posts_backoff_trace in Hp.
  rewrite Nat.sub_0_r in Hp. now subst n.
Qed.

(** X2.  When the requests fail up to request [k] and request [k] brings a
    body with a truthy text on the path, the call returns that text after
    [k + 1] requests and makes no further request. *)
Theorem call_returns_first_text (k : nat) (result t : json) :
  k < max_retries ->
  (forall j, j < k -> transport j = RequestException) ->
  transport k = JsonBody result ->
  text_at result t -> truthy t = true ->
  call_gemini_api_with_retry transport prompt max_retries initial_delay []
  = (Returned t, backoff_trace prompt initial_delay 0 (S k)).
Proof.
  intros Hk Hfail Hbody Hat Ht.
  rewrite (call_first_body k result Hk Hfail Hbody).
  now rewrite (on_body_text _ _ Hat Ht).
Qed.

(** X3.  A call returns [None] or a truthy value, never a falsy one such as
    the empty string; a value that is not [None] is the text on the path
    of the first decoded body. *)
Theorem call_returns_none_or_text (v : json) :
  fst (call_gemini_api_with_retry transport prompt max_retries
         initial_delay []) = Returned v ->
  v = JNull
  \/ (truthy v = true
      /\ exists k result,
           k < max_retries
           /\ (forall j, j < k -> transport j = RequestException)
           /\ transport k = JsonBody result
           /\ text_at result v).
Proof.
  intros H.
  destruct call_result
    as [E|[(k & result & Hk & Hfail & Hbody & E)|(k & e & _ & _ & _ & E)]];
    rewrite E in H.
  - injection H as <-. now left.
  - destruct (on_body_returned _ _ H) as [->|[Ht Hat]]; [now left|].
    right. split; [exact Ht|]. exists k, result. auto.
  - discriminate.
Qed.

(** X4.  A [RequestException] never leaves the call.  With sleeps that
    [time.sleep] takes, an exception that leaves the call is the one of a
    request that is no [RequestException] (such as the [ValueError] or the
    [RecursionError] of [response.json()]), passed on as it is after the
    requests before it have failed, or else the [AttributeError],
    [KeyError] or [TypeError] of the condition on a decoded body; the
    condition never raises [IndexError], since [[0]] is applied only to
    values found truthy. *)
Theorem call_raises_cases (e : exn) :
  sleeps_safe max_retries initial_delay ->
  fst (call_gemini_api_with_retry transport prompt max_retries
         initial_delay []) = Raised e ->
  (exists k,
     k < max_retries
     /\ (forall j, j < k -> transport j = RequestException)
     /\ transport k = OtherException e)
  \/ (exists k result,
        k < max_retries
        /\ (forall j, j < k -> transport j = RequestException)
        /\ transport k = JsonBody result
        /\ on_body result = Raised e
        /\ (e = AttributeError \/ e = KeyError \/ e = TypeError)).
Proof.
  intros _ H.
  destruct call_result
    as [E|[(k & result & Hk & Hfail & Hbody & E)
          |(k & e' & Hk & Hfail & Hexn & E)]];
    rewrite E in H; [discriminate | |].
  - right. exists k, result.
    repeat (split; [assumption|]). exact (on_body_raised _ _ H).
  - injection H as ->. left. exists k. auto.
Qed.

End RetryLoop.

(* ================================================================== *)
(** * White space around a line *)

Section Padding.

(** A pattern that ends with a character that is no white space. *)
Variables (p0 : string) (z : ascii).
Hypothesis z_not_space : isspace z = false.

Local Abbreviation p := (p0 ++ String z "")%string.

Lemma drop_prefix_padded_right (x y : string) :
  all_chars isspace y = true ->
  drop_prefix p (x ++ y)
  = match drop_prefix p x with
    | Some r => Some (r ++ y)%string
    | None => None
    end.
Proof.
  intros Hy. revert x y Hy. induction p0 as [|a q IH]; intros x y Hy.
  - destruct x as [|b x]; simpl.
    + destruct y as [|b y]; [reflexivity|]. simpl in Hy.
      apply andb_true_iff in Hy as [Hb _].
      destruct (Ascii.eqb_spec z b) as [->|]; [congruence | reflexivity].
    + now destruct (Ascii.eqb z b).
  - destruct x as [|b x]; simpl.
    + destruct y as [|b y]; [reflexivity|]. simpl in Hy.
      apply andb_true_iff in Hy as [_ Hy].
      destruct (Ascii.eqb a b); [|reflexivity].
      specialize (IH "" y Hy). simpl in IH. rewrite IH. now destruct q.
    + destruct (Ascii.eqb a b); [|reflexivity]. now apply IH.
Qed.

Lemma startswith_drop_prefix (q s : string) :
  startswith q s = match drop_prefix q s with Some _ => true | None => false end.
Proof.
  revert s. induction q as [|a q IH]; intros s; [now destruct s|].
  destruct s as [|b s]; simpl; [reflexivity|].
  destruct (Ascii.eqb a b); simpl; [apply IH | reflexivity].
Qed.

Lemma startswith_padded_right (x y : string) :
  all_chars isspace y = true -> startswith p (x ++ y) = startswith p x.
Proof.
  intros Hy. rewrite !startswith_drop_prefix, drop_prefix_padded_right by exact Hy.
  now destruct (drop_prefix p x).
Qed.

Lemma startswith_pattern_nil : startswith p "" = false.
Proof. now destruct p0. Qed.

Lemma str_in_spaces (y : string) :
  all_chars isspace y = true -> str_in p y = false.
Proof.
  induction y as [|b y IH]; intros Hy; rewrite str_in_unfold.
  - now rewrite startswith_pattern_nil.
  - pose proof (startswith_padded_right "" (String b y) Hy) as E.
    cbn [append] in E. rewrite E, startswith_pattern_nil.
    simpl in Hy. apply andb_true_iff in Hy as [_ Hy]. now apply IH.
Qed.

Lemma str_in_padded_right (x y : string) :
  all_chars isspace y = true -> str_in p (x ++ y) = str_in p x.
Proof.
  intros Hy. induction x as [|c x IH].
  - cbn [append]. rewrite (str_in_spaces y Hy).
    symmetry. exact (str_in_spaces "" eq_refl).
  - change (String c x ++ y)%string with (String c (x ++ y)).
    rewrite (str_in_unfold p (String c (x ++ y))),
      (str_in_unfold p (String c x)).
    change (String c (x ++ y)) with (String c x ++ y)%string.
    now rewrite startswith_padded_right, IH.
Qed.

End Padding.

Lemma str_in_padded_left (a : ascii) (q ws x : string) :
  isspace a = false -> all_chars isspace ws = true ->
  str_in (String a q) (ws ++ x) = str_in (String a q) x.
Proof.
  intros Ha. induction ws as [|c ws IH]; intros Hws; [reflexivity|].
  simpl in Hws. apply andb_true_iff in Hws as [Hc Hws].
  change (String c ws ++ x)%string with (String c (ws ++ x)).
  rewrite str_in_unfold, (IH Hws). cbn [startswith].
  destruct (Ascii.eqb_spec a c) as [->|]; [congruence | reflexivity].
Qed.

Lemma lstrip_by_padded_left (p : ascii -> bool) (ws x : string) :
  all_chars p ws = true -> lstrip_by p (ws ++ x) = lstrip_by p x.
Proof.
  induction ws as [|c ws IH]; simpl; intros H; [reflexivity|].
  apply andb_true_iff in H as [Hc Hws]. now rewrite Hc, IH.
Qed.

Lemma lstrip_by_padded_right (p : ascii -> bool) (x y : string) :
  all_chars p y = true ->
  lstrip_by p (x ++ y)
  = match lstrip_by p x with
    | EmptyString => EmptyString
    | String c r => (String c r ++ y)%string
    end.
Proof.
  intros Hy. induction x as [|c x IH]; simpl.
  - now apply lstrip_by_empty.
  - destruct (p c); [exact IH | reflexivity].
Qed.

Lemma rstrip_by_padded_right (p : ascii -> bool) (x y : string) :
  all_chars p y = true -> rstrip_by p (x ++ y) = rstrip_by p x.
Proof.
  intros Hy. induction x as [|c x IH]; simpl.
  - now apply rstrip_by_all.
  - now rewrite IH.
Qed.

Lemma strip_padded (ws1 x ws2 : string) :
  all_chars isspace ws1 = true -> all_chars isspace ws2 = true ->
  strip (ws1 ++ x ++ ws2) = strip x.
Proof.
  intros H1 H2. unfold strip.
  rewrite lstrip_by_padded_left by exact H1.
  rewrite lstrip_by_padded_right by exact H2.
  destruct (lstrip_by isspace x) as [|c r]; [reflexivity|].
  now apply rstrip_by_padded_right.
Qed.

Lemma take_while_padded_right (p : ascii -> bool) (x y : string) :
  head_not p y = true -> take_while p (x ++ y) = take_while p x.
Proof.
  intros Hy. induction x as [|c x IH]; simpl.
  - destruct y as [|b y]; [reflexivity|]. simpl in *. now destruct (p b).
  - now rewrite IH.
Qed.

Lemma space_not_decimal (y : string) :
  all_chars isspace y = true -> head_not isdecimal y = true.
Proof.
  destruct y as [|b y]; simpl; [reflexivity|]. intros H.
  apply andb_true_iff in H as [Hb _].
  destruct (isdecimal b) eqn:E; [|reflexivity].
  now rewrite (isdecimal_not_space _ E) in Hb.
Qed.

Lemma drop_label_padded_right (x y : string) :
  all_chars isspace y = true ->
  drop_prefix "ATS Score:" (x ++ y)
  = match drop_prefix "ATS Score:" x with
    | Some r => Some (r ++ y)%string
    | None => None
    end.
Proof. exact (drop_prefix_padded_right "ATS Score" ":" eq_refl x y). Qed.

Lemma str_in_label_padded (ws1 x ws2 : string) :
  all_chars isspace ws1 = true -> all_chars isspace ws2 = true ->
  str_in "ATS Score:" (ws1 ++ x ++ ws2) = str_in "ATS Score:" x.
Proof.
  intros H1 H2. rewrite str_in_padded_left by (reflexivity || exact H1).
  exact (str_in_padded_right "ATS Score" ":" eq_refl x ws2 H2).
Qed.

Lemma str_in_heading_padded (ws1 x ws2 : string) :
  all_chars isspace ws1 = true -> all_chars isspace ws2 = true ->
  str_in "Suggestions:" (ws1 ++ x ++ ws2) = str_in "Suggestions:" x.
Proof.
  intros H1 H2. rewrite str_in_padded_left by (reflexivity || exact H1).
  exact (str_in_padded_right "Suggestions" ":" eq_refl x ws2 H2).
Qed.

Lemma re_match_score_padded_right (x y : string) :
  all_chars isspace y = true -> re_match_score (x ++ y) = re_match_score x.
Proof.
  intros Hy. unfold re_match_score.
  rewrite drop_label_padded_right by exact Hy.
  destruct (drop_prefix "ATS Score:" x) as [r|]; [|reflexivity].
  rewrite lstrip_by_padded_right by exact Hy.
  destruct (lstrip_by isspace r) as [|c u]; [reflexivity|].
  now rewrite take_while_padded_right by now apply space_not_decimal.
Qed.

Lemma re_search_score_spaces (y : string) :
  all_chars isspace y = true -> re_search_score y = None.
Proof.
  induction y as [|b y IH]; intros Hy; rewrite re_search_score_unfold.
  - reflexivity.
  - pose proof (re_match_score_padded_right "" (String b y) Hy) as E.
    cbn [append] in E. rewrite E. cbn [re_match_score drop_prefix].
    simpl in Hy. apply andb_true_iff in Hy as [_ Hy]. now apply IH.
Qed.

Lemma re_search_score_padded_right (x y : string) :
  all_chars isspace y = true -> re_search_score (x ++ y) = re_search_score x.
Proof.
  intros Hy. induction x as [|c x IH].
  - simpl. now rewrite re_search_score_spaces.
  - change (String c x ++ y)%string with (String c (x ++ y)).
    rewrite (re_search_score_unfold (String c (x ++ y))),
      (re_search_score_unfold (String c x)).
    change (String c (x ++ y)) with (String c x ++ y)%string.
    now rewrite re_match_score_padded_right, IH.
Qed.

Lemma re_search_score_padded_left (ws x : string) :
  all_chars isspace ws = true -> re_search_score (ws ++ x) = re_search_score x.
Proof.
  induction ws as [|c ws IH]; intros Hws; [reflexivity|].
  simpl in Hws. apply andb_true_iff in Hws as [Hc Hws].
  change (String c ws ++ x)%string with (String c (ws ++ x)).
  rewrite re_search_score_unfold, (IH Hws).
  unfold re_match_score. cbn [drop_prefix].
  destruct (Ascii.eqb_spec "A" c) as [<-|]; [discriminate | reflexivity].
Qed.

(** White space before and after a line never changes what the loop body
    does with the line. *)
Lemma loop_body_padded (max_str_digits : N) (st : state)
    (line line' : string) :
  padded line line' ->
  loop_body max_str_digits st line' = loop_body max_str_digits st line.
Proof.
  intros (ws1 & ws2 & -> & H1 & H2). unfold loop_body.
  rewrite strip_padded by assumption.
  rewrite re_search_score_padded_left by exact H1.
  rewrite re_search_score_padded_right by exact H2.
  rewrite str_in_heading_padded, str_in_label_padded by assumption.
  reflexivity.
Qed.

(* ================================================================== *)
(** * More on the loop of the parser *)

Lemma head_not_lstrip_by (p : ascii -> bool) (s : string) :
  head_not p s = true -> lstrip_by p s = s.
Proof. destruct s as [|c s]; simpl; [reflexivity|]. now destruct (p c). Qed.

Lemma head_not_rstrip_by (p : ascii -> bool) (s : string) :
  head_not p s = true -> head_not p (rstrip_by p s) = true.
Proof.
  destruct s as [|c s]; simpl; [reflexivity|]. intros H.
  destruct (rstrip_by p s); [|exact H].
  destruct (p c) eqn:E; [discriminate|]. simpl. now rewrite E.
Qed.

Lemma head_not_strip (s : string) : head_not isspace (strip s) = true.
Proof.
  unfold strip. apply head_not_rstrip_by.
  now destruct (lstrip_by_decompose isspace s) as (_ & _ & H).
Qed.

(** Trimming twice is trimming once. *)
Lemma strip_idempotent (s : string) : strip (strip s) = strip s.
Proof.
  unfold strip at 1. rewrite head_not_lstrip_by by apply head_not_strip.
  apply strip_fixed.
Qed.

Lemma is_blank_spaces (line : string) :
  is_blank line = true <-> all_chars isspace line = true.
Proof.
  unfold is_blank. rewrite <- strip_empty.
  destruct (strip line); simpl; split; congruence.
Qed.

Lemma find_app {A : Type} (f : A -> bool) (l1 l2 : list A) :
  find f (l1 ++ l2)
  = match find f l1 with Some x => Some x | None => find f l2 end.
Proof.
  induction l1 as [|x l1 IH]; simpl; [reflexivity|].
  now destruct (f x).
Qed.

Lemma find_all_false {A : Type} (f : A -> bool) (l : list A) :
  (forall x, In x l -> f x = false) -> find f l = None.
Proof.
  induction l as [|x l IH]; intros H; [reflexivity|].
  cbn [find]. rewrite (H x) by now left.
  apply IH. intros y Hy. apply H. now right.
Qed.

Section LoopMore.

Variable max_str_digits : N.

Local Abbreviation next := (next_state max_str_digits).

(** The score after a line. *)
Lemma next_score (score : ats_score) (sugg : list string) (line : string) :
  fst (next (score, sugg) line)
  = if sets_score max_str_digits line then score_of_line line else score.
Proof.
  unfold sets_score, score_of_line.
  destruct (re_search_score line) as [digits|] eqn:Hre.
  - unfold next_state, loop_body, int_of_str. rewrite Hre.
    now destruct (int_too_long max_str_digits digits).
  - now rewrite next_keeps_score.
Qed.

(** The suggestions after a line. *)
Lemma next_suggestions (score : ats_score) (sugg : list string)
    (line : string) :
  snd (next (score, sugg) line)
  = if is_bullet line then sugg ++ [bullet_text line]
    else match sugg with
         | [] => if is_plain line then [strip line] else []
         | _ :: _ => sugg
         end.
Proof.
  unfold next_state, loop_body, int_of_str, is_bullet, is_plain, bullet_text.
  destruct (re_search_score line) as [digits|].
  - destruct (int_too_long max_str_digits digits); now destruct sugg.
  - branches line sugg; try reflexivity; now destruct sugg.
Qed.

Lemma fold_next_score (lines : list string) (score : ats_score)
    (sugg : list string) :
  fst (fold_left next lines (score, sugg))
  = match find (sets_score max_str_digits) (rev lines) with
    | Some line => score_of_line line
    | None => score
    end.
Proof.
  revert score sugg. induction lines as [|line rest IH]; intros score sugg.
  - reflexivity.
  - cbn [fold_left rev]. rewrite find_app.
    destruct (next (score, sugg) line) as [score' sugg'] eqn:E.
    rewrite IH. pose proof (next_score score sugg line) as H.
    rewrite E in H. cbn [fst] in H. subst score'.
    destruct (find (sets_score max_str_digits) (rev rest)); [reflexivity|].
    cbn [find]. now destruct (sets_score max_str_digits line).
Qed.

Lemma fold_next_collected_from (lines : list string) (score : ats_score)
    (x : string) (sugg : list string) :
  snd (fold_left next lines (score, x :: sugg))
  = (x :: sugg) ++ map bullet_text (filter is_bullet lines).
Proof.
  revert score x sugg. induction lines as [|line rest IH]; intros score x sugg.
  - simpl. now rewrite app_nil_r.
  - cbn [fold_left filter].
    destruct (next (score, x :: sugg) line) as [score' sugg'] eqn:E.
    pose proof (next_suggestions score (x :: sugg) line) as H.
    rewrite E in H. cbn [snd] in H. subst sugg'.
    destruct (is_bullet line).
    + cbn [app]. rewrite IH. cbn [map app]. f_equal.
      now rewrite <- app_assoc.
    + apply IH.
Qed.

(** The suggestions that the loop collects, said without the loop. *)
Lemma fold_next_collected (lines : list string) (score : ats_score) :
  snd (fold_left next lines (score, []))
  = lenient_suggestion lines ++ map bullet_text (filter is_bullet lines).
Proof.
  revert score. induction lines as [|line rest IH]; intros score.
  - reflexivity.
  - cbn [fold_left filter lenient_suggestion].
    destruct (next (score, []) line) as [score' sugg'] eqn:E.
    pose proof (next_suggestions score [] line) as H.
    rewrite E in H. cbn [snd] in H. subst sugg'.
    destruct (is_bullet line).
    + cbn [app]. now rewrite fold_next_collected_from.
    + destruct (is_plain line); [|apply IH].
      now rewrite fold_next_collected_from.
Qed.

(** A blank line changes nothing. *)
Lemma next_blank (st : state) (line : string) :
  is_blank line = true -> next st line = st.
Proof.
  intros H. pose proof H as Hsp. apply is_blank_spaces in Hsp.
  unfold is_blank in H. apply negb_true_iff in H.
  unfold next_state, loop_body. destruct st as [score sugg].
  rewrite (re_search_score_spaces _ Hsp).
  destruct (strip line) as [|c r]; [|discriminate].
  cbn [startswith nonempty].
  now destruct (str_in "Suggestions:" line).
Qed.

Lemma fold_next_skip_blank (lines : list string) (st : state) :
  fold_left next (filter (fun l => negb (is_blank l)) lines) st
  = fold_left next lines st.
Proof.
  revert st. induction lines as [|line rest IH]; intros st; [reflexivity|].
  cbn [filter fold_left]. destruct (is_blank line) eqn:E; cbn [negb].
  - now rewrite (next_blank _ _ E).
  - cbn [fold_left]. apply IH.
Qed.

Lemma fold_next_padded (lines lines' : list string) (st : state) :
  Forall2 padded lines lines' ->
  fold_left next lines' st = fold_left next lines st.
Proof.
  intros H. revert st. induction H as [|l l' ls ls' Hl _ IH]; intros st.
  - reflexivity.
  - cbn [fold_left]. unfold next_state at 2 4.
    rewrite (loop_body_padded max_str_digits st l l' Hl). apply IH.
Qed.

End LoopMore.

(* ================================================================== *)
(** * More properties of [parse_ats_response] *)

Lemma post_process_filler (score : ats_score) (sugg : list string) :
  post_process (score, sugg)
  = mkResult score
      match sugg with
      | [] => [filler score]
      | _ :: _ => sugg
      end.
Proof.
  destruct sugg as [|x sugg]; [|reflexivity].
  destruct score as [|n]; [reflexivity|].
  cbn [post_process str_of_score]. now rewrite NA_not_in_str_of_int.
Qed.

Lemma split_padded_nonempty (s s' : string) :
  s <> ""%string -> Forall2 padded (split LF s) (split LF s') ->
  s' <> ""%string.
Proof.
  intros Hs H ->. cbn [split] in H.
  inversion H as [|l l' ls ls' (ws1 & ws2 & E & _) Hrest El El']; subst.
  inversion Hrest; subst.
  destruct ws1; [|discriminate]. destruct l; [|discriminate].
  apply Hs. rewrite <- (join_split s), <- El. reflexivity.
Qed.

Lemma lenient_suggestion_trimmed (lines : list string) :
  Forall (fun x => strip x = x) (lenient_suggestion lines).
Proof.
  induction lines as [|line rest IH]; cbn [lenient_suggestion];
    [constructor|].
  destruct (is_bullet line); [constructor|].
  destruct (is_plain line); [|exact IH].
  constructor; [apply strip_idempotent | constructor].
Qed.

Section ParserMore.

Variable max_str_digits : N.

Local Abbreviation next := (next_state max_str_digits).

(** C10.  On every string, an integer score is never negative.  No upper
    bound is applied: when a line has the pattern with digits that [int]
    accepts, and no later line sets a score, the score returned is the
    value of those digits, whatever it is; so the line ["ATS Score: 150"]
    gives 150. *)
Theorem score_never_negative_nor_capped :
  (forall s : string,
     exists r,
       parse_ats_response max_str_digits (JStr s) = Returned r
       /\ score_ok (atsScore r))
  /\ (forall (s : string) (pre post : list string) (l digits : string),
        split LF s = pre ++ l :: post ->
        re_search_score l = Some digits ->
        int_too_long max_str_digits digits = false ->
        (forall l', In l' post -> sets_score max_str_digits l' = false) ->
        exists r,
          parse_ats_response max_str_digits (JStr s) = Returned r
          /\ atsScore r = ScoreInt (int_of_digits digits))
  /\ parse_ats_response max_str_digits (JStr "ATS Score: 150")
     = Returned (mkResult (ScoreInt 150) [NO_SUGGESTIONS]).
Proof.
  split; [|split; [|reflexivity]].
  - intros s. destruct (string_dec s "") as [->|Hs].
    + rewrite parse_empty_string. eexists. split; [reflexivity | exact I].
    + rewrite parse_nonempty_string by exact Hs.
      eexists. split; [reflexivity|].
      rewrite post_process_score. now apply fold_next_score_ok.
  - intros s pre post l digits Hsplit Hre Hlen Hpost.
    rewrite parse_nonempty_string
      by exact (split_matching_line_nonempty _ _ _ _ _ Hsplit Hre).
    eexists. split; [reflexivity|].
    rewrite post_process_score, fold_next_score, Hsplit.
    rewrite rev_app_distr. cbn [rev]. rewrite <- app_assoc, find_app.
    rewrite (find_all_false _ (rev post))
      by (intros x Hx; apply Hpost; now apply in_rev).
    cbn [app find]. unfold sets_score at 1. rewrite Hre, Hlen. cbn [negb].
    unfold score_of_line. now rewrite Hre.
Qed.

(** X5.  The score returned is the one of the last line that sets a score
    (a line with the pattern whose digits [int] accepts), and ["N/A"] when
    no line sets one; it is never turned into a number such as 0. *)
Theorem parse_score_is_last_set (s : string) :
  exists r,
    parse_ats_response max_str_digits (JStr s) = Returned r
    /\ atsScore r
       = match find (sets_score max_str_digits) (rev (split LF s)) with
         | Some line => score_of_line line
         | None => ScoreNA
         end.
Proof.
  destruct (string_dec s "") as [->|Hs].
  - rewrite parse_empty_string. eexists. split; reflexivity.
  - rewrite parse_nonempty_string by exact Hs.
    eexists. split; [reflexivity|].
    rewrite post_process_score. apply fold_next_score.
Qed.

(** X6.  For a reply that is not empty, the suggestions returned are the line
    taken by the lenient rule (the first plain line, when no bullet line
    comes before it) and then the texts of the bullet lines in their
    order; when that makes no suggestion, the one filler that goes with
    the score. *)
Theorem parse_suggestions_collected (s : string) :
  s <> ""%string ->
  exists r,
    parse_ats_response max_str_digits (JStr s) = Returned r
    /\ suggestions r
       = match lenient_suggestion (split LF s)
               ++ map bullet_text (filter is_bullet (split LF s)) with
         | [] => [filler (atsScore r)]
         | x :: collected => x :: collected
         end.
Proof.
  intros Hs. rewrite parse_nonempty_string by exact Hs.
  eexists. split; [reflexivity|].
  destruct (fold_left next (split LF s) (ScoreNA, [])) as [score sugg] eqn:E.
  pose proof (fold_next_collected max_str_digits (split LF s) ScoreNA) as H.
  rewrite E in H. cbn [snd] in H. rewrite <- H.
  rewrite post_process_filler. now destruct sugg.
Qed.

(** X7.  Blank lines do not count: two replies, neither empty, whose lines
    other than the blank ones are the same give the same result. *)
Theorem parse_ignores_blank_lines (s s' : string) :
  s <> ""%string -> s' <> ""%string ->
  filter (fun l => negb (is_blank l)) (split LF s)
  = filter (fun l => negb (is_blank l)) (split LF s') ->
  parse_ats_response max_str_digits (JStr s')
  = parse_ats_response max_str_digits (JStr s).
Proof.
  intros Hs Hs' H. rewrite !parse_nonempty_string by assumption.
  rewrite <- (fold_next_skip_blank max_str_digits (split LF s)).
  rewrite <- (fold_next_skip_blank max_str_digits (split LF s')).
  now rewrite H.
Qed.

(** X8.  White space around the lines does not count: a reply whose lines
    are those of [s] with white space added before or after them (an
    indented reply, a reply with carriage returns before the line feeds)
    gives the result of [s]. *)
Theorem parse_ignores_padding (s s' : string) :
  s <> ""%string ->
  Forall2 padded (split LF s) (split LF s') ->
  parse_ats_response max_str_digits (JStr s')
  = parse_ats_response max_str_digits (JStr s).
Proof.
  intros Hs H.
  rewrite !parse_nonempty_string
    by (exact Hs || exact (split_padded_nonempty _ _ Hs H)).
  now rewrite (fold_next_padded max_str_digits _ _ _ H).
Qed.

(** X9.  Every suggestion returned is trimmed: no white space at its start
    or at its end. *)
Theorem suggestions_are_trimmed (s : string) :
  exists r,
    parse_ats_response max_str_digits (JStr s) = Returned r
    /\ Forall (fun x => strip x = x) (suggestions r).
Proof.
  destruct (string_dec s "") as [->|Hs].
  - rewrite parse_empty_string. eexists. split; [reflexivity|].
    constructor; [reflexivity | constructor].
  - rewrite parse_nonempty_string by exact Hs.
    eexists. split; [reflexivity|].
    destruct (fold_left next (split LF s) (ScoreNA, [])) as [score sugg] eqn:E.
    pose proof (fold_next_collected max_str_digits (split LF s) ScoreNA) as H.
    rewrite E in H. cbn [snd] in H.
    rewrite post_process_filler. cbn [suggestions].
    destruct sugg as [|x sugg].
    + constructor; [now destruct score | constructor].
    + rewrite H. apply Forall_app. split.
      * apply lenient_suggestion_trimmed.
      * apply Forall_map, Forall_forall. intros l _.
        apply strip_idempotent.
Qed.

End ParserMore.

(* ================================================================== *)
(** * The output that the docstring assumes *)

Lemma char_in_append (c : ascii) (a b : string) :
  char_in c (a ++ b) = char_in c a || char_in c b.
Proof.
  induction a as [|x a IH]; simpl; [reflexivity|].
  now rewrite IH, orb_assoc.
Qed.

Lemma split_line (sep : ascii) (l : string) :
  char_in sep l = false -> split sep l = [l].
Proof.
  induction l as [|c l IH]; simpl; [reflexivity|]. intros H.
  apply orb_false_iff in H as [Hc Hl].
  rewrite Ascii.eqb_sym, Hc, (IH Hl). reflexivity.
Qed.

Lemma split_line_then (sep : ascii) (l t : string) :
  char_in sep l = false ->
  split sep (l ++ String sep t) = l :: split sep t.
Proof.
  induction l as [|c l IH]; simpl.
  - now rewrite Ascii.eqb_refl.
  - intros H. apply orb_false_iff in H as [Hc Hl].
    rewrite Ascii.eqb_sym, Hc, (IH Hl). reflexivity.
Qed.

(** [split] undoes [join] on lines without the separator. *)
Lemma split_join (sep : ascii) (lines : list string) :
  lines <> [] -> Forall (fun l => char_in sep l = false) lines ->
  split sep (join sep lines) = lines.
Proof.
  intros Hne H. induction H as [|l rest Hl Hrest IH]; [congruence|].
  destruct rest as [|l2 rest].
  - now apply split_line.
  - change (join sep (l :: l2 :: rest))
      with (l ++ String sep (join sep (l2 :: rest)))%string.
    rewrite split_line_then by exact Hl. f_equal. now apply IH.
Qed.

Lemma decimal_no_line_feed (digits : string) :
  all_chars isdecimal digits = true -> char_in LF digits = false.
Proof.
  induction digits as [|d ds IH]; cbn [all_chars char_in]; [reflexivity|].
  intros H. apply andb_true_iff in H as [Hd Hds].
  rewrite (IH Hds), orb_false_r.
  destruct (Ascii.eqb_spec LF d) as [<-|]; [discriminate | reflexivity].
Qed.

(** The score line of the output: the pattern is there with the digits. *)
Lemma re_search_score_line (digits : string) :
  digits <> ""%string -> all_chars isdecimal digits = true ->
  re_search_score ("ATS Score: " ++ digits ++ "/100") = Some digits.
Proof.
  intros Hne Hds. rewrite re_search_score_unfold.
  assert (re_match_score ("ATS Score: " ++ digits ++ "/100") = Some digits)
    as ->; [|reflexivity].
  apply re_match_score_spec. exists " "%string, "/100"%string.
  repeat split; trivial.
Qed.

Lemma carried_inv (sugg : string) :
  carried sugg = true ->
  char_in LF sugg = false /\ strip sugg = sugg
  /\ startswith "-" sugg = false /\ re_search_score sugg = None.
Proof.
  unfold carried. intros H.
  apply andb_true_iff in H as [H H4]. apply andb_true_iff in H as [H H3].
  apply andb_true_iff in H as [H1 H2].
  apply negb_true_iff in H1, H3. apply String.eqb_eq in H2.
  destruct (re_search_score sugg); [discriminate | auto].
Qed.

(** The hyphen line of a carried suggestion, trimmed. *)
Lemma strip_hyphen_line (sugg : string) :
  strip sugg = sugg ->
  strip ("- " ++ sugg)
  = match sugg with
    | EmptyString => "-"%string
    | String _ _ => ("- " ++ sugg)%string
    end.
Proof.
  intros H. pose proof (strip_fixed sugg) as Hfix. rewrite H in Hfix.
  destruct sugg as [|c r]; [reflexivity|].
  unfold strip. cbn [append lstrip_by]. 
  change (isspace "-") with false. cbv iota.
  cbn [rstrip_by] in *. 
  destruct (rstrip_by isspace r) as [|d r'] eqn:E.
  - destruct (isspace c); [discriminate|]. injection Hfix as <-. reflexivity.
  - injection Hfix as <-. reflexivity.
Qed.

Section StructuredOutput.

Variable max_str_digits : N.

Local Abbreviation next := (next_state max_str_digits).

(** A hyphen line with a carried suggestion appends that suggestion. *)
Lemma next_hyphen_line (score : ats_score) (acc : list string)
    (sugg : string) :
  carried sugg = true ->
  next (score, acc) ("- " ++ sugg) = (score, acc ++ [sugg]).
Proof.
  intros H. destruct (carried_inv _ H) as (_ & Htrim & Hhy & Hre).
  assert (re_search_score ("- " ++ sugg) = None) as Hnone.
  { change ("- " ++ sugg)%string with (String "-" (String " " sugg)).
    rewrite re_search_score_unfold. cbn [re_match_score drop_prefix].
    change (Ascii.eqb "A" "-") with false. cbv iota.
    rewrite re_search_score_unfold. cbn [re_match_score drop_prefix].
    change (Ascii.eqb "A" " ") with false. cbv iota. exact Hre. }
  unfold next_state, loop_body. rewrite Hnone.
  rewrite (strip_hyphen_line _ Htrim).
  pose proof (head_not_strip sugg) as Hhead. rewrite Htrim in Hhead.
  destruct sugg as [|c r]; [reflexivity|].
  cbn [append startswith]. change (Ascii.eqb "-" "-") with true.
  cbn [andb]. unfold lstrip. cbn [lstrip_by char_in].
  change (Ascii.eqb "-" "-") with true. cbn [orb].
  change (Ascii.eqb " " "-") with false.
  change (Ascii.eqb " " " ") with true. cbn [orb].
  cbn [startswith] in Hhy. rewrite andb_true_r in Hhy.
  rewrite Ascii.eqb_sym, Hhy. cbn [orb].
  cbn [head_not] in Hhead. apply negb_true_iff in Hhead.
  destruct (Ascii.eqb_spec c " ") as [->|]; [discriminate|].
  cbn [orb]. now rewrite Htrim.
Qed.

Lemma fold_next_hyphen_lines (score : ats_score) (suggs acc : list string) :
  Forall (fun sugg => carried sugg = true) suggs ->
  fold_left next (map (fun sugg => ("- " ++ sugg)%string) suggs) (score, acc)
  = (score, acc ++ suggs).
Proof.
  intros H. revert acc. induction H as [|sugg rest Hs _ IH]; intros acc.
  - simpl. now rewrite app_nil_r.
  - cbn [map fold_left]. rewrite (next_hyphen_line _ _ _ Hs), IH.
    now rewrite <- app_assoc.
Qed.

(** The parser on a structured output. *)
Lemma parse_structured (digits : string) (suggs : list string) :
  digits <> ""%string ->
  all_chars isdecimal digits = true ->
  int_too_long max_str_digits digits = false ->
  suggs <> [] ->
  Forall (fun sugg => carried sugg = true) suggs ->
  parse_ats_response max_str_digits (JStr (structured_output digits suggs))
  = Returned (mkResult (ScoreInt (int_of_digits digits)) suggs).
Proof.
  intros Hne Hds Hlen Hsuggs Hcar.
  assert (split LF (structured_output digits suggs)
          = ("ATS Score: " ++ digits ++ "/100")%string
            :: "Suggestions:"%string
            :: map (fun sugg => ("- " ++ sugg)%string) suggs) as Hsplit.
  { apply split_join; [discriminate|].
    constructor.
    - rewrite !char_in_append, (decimal_no_line_feed _ Hds). reflexivity.
    - constructor; [reflexivity|].
      apply Forall_map. revert Hcar. apply Forall_impl. intros sugg H.
      destruct (carried_inv _ H) as (Hlf & _). cbv beta.
      now rewrite char_in_append, Hlf. }
  rewrite parse_nonempty_string.
  - rewrite Hsplit. cbn [fold_left].
    rewrite (next_score_line max_str_digits _ _ _ digits)
      by (exact Hlen || exact (re_search_score_line _ Hne Hds)).
    change (next (ScoreInt (int_of_digits digits), []) "Suggestions:")
      with (ScoreInt (int_of_digits digits), @nil string).
    rewrite fold_next_hyphen_lines by exact Hcar.
    rewrite post_process_filler. cbn [app].
    now destruct suggs.
  - intros E. rewrite E in Hsplit. discriminate.
Qed.

(** X10.  On an output structured as the docstring assumes (the score line,
    the heading, a hyphen line for each suggestion), the parser gives back
    the score and the suggestions as they were written. *)
Theorem parse_structured_output (digits : string) (suggs : list string) :
  digits <> ""%string ->
  all_chars isdecimal digits = true ->
  int_too_long max_str_digits digits = false ->
  suggs <> [] ->
  Forall (fun sugg => carried sugg = true) suggs ->
  parse_ats_response max_str_digits (JStr (structured_output digits suggs))
  = Returned (mkResult (ScoreInt (int_of_digits digits)) suggs).
Proof. exact (parse_structured digits suggs). Qed.

End StructuredOutput.

(* ================================================================== *)
(** * Beyond the pipeline: the extraction, the database, the view *)

Import Pdf Upload UploadSpec Samples.

(* ================================================================== *)
(** * Properties of [extract_text_from_pdf] *)

Lemma or_empty_page_text (t : option string) :
  or_empty t = page_text (PageText t).
Proof. destruct t as [[|c s]|]; reflexivity. Qed.

Lemma for_pages_spec (pages : list page) (text : string) :
  for_pages pages text
  = if forallb page_ok pages then Some (text ++ pages_text pages)%string
    else None.
Proof.
  revert text. induction pages as [|p rest IH]; intros text.
  - simpl. now rewrite append_nil_r.
  - destruct p as [t|]; [|reflexivity].
    cbn [for_pages forallb page_ok andb pages_text]. rewrite IH.
    now rewrite or_empty_page_text, append_assoc.
Qed.

(** X11.  The text extracted is all or nothing: the texts of all the pages in
    their order (a page without text adds nothing) when the file is read
    and every page is extracted, and [None] as soon as the file or one
    page fails, whatever the other pages hold. *)
Theorem extract_text_all_or_nothing :
  extract_text_from_pdf Unreadable = None
  /\ forall pages,
       extract_text_from_pdf (Readable pages)
       = if forallb page_ok pages then Some (pages_text pages) else None.
Proof. split; [reflexivity|]. intros pages. apply for_pages_spec. Qed.

(* ================================================================== *)
(** * Properties of the database functions *)

Lemma get_db_again (c : nat) (d : Db.database) :
  Db.get_db (Some c) d = (c, Some c, d).
Proof. reflexivity. Qed.

(** X12.  In one application context, any number of calls of [get_db] make
    one connection: each call returns the connection of the first call,
    and the database is as after the first call. *)
Theorem get_db_connects_once (n : nat) (d : Db.database) :
  get_db_times (S n) None d
  = (Some (Db.connected d), Some (Db.connected d), snd (Db.connect d)).
Proof.
  cbn [get_db_times Db.get_db Db.connect snd].
  destruct n as [|n]; [reflexivity|].
  generalize (Db.mkDatabase (Db.results d) (S (Db.connected d))
                (Db.connected d :: Db.open d)).
  induction n as [|n IH]; intros d'; [reflexivity|].
  cbn [get_db_times Db.get_db]. cbn [get_db_times Db.get_db] in IH.
  apply IH.
Qed.

Lemma filter_fresh (c : nat) (l : list nat) :
  Forall (fun c' => c' < c) l ->
  filter (fun c' => negb (Nat.eqb c' c)) l = l.
Proof.
  induction 1 as [|x l Hx _ IH]; simpl; [reflexivity|].
  destruct (Nat.eqb_spec x c); [lia|]. simpl. now rewrite IH.
Qed.

(** Opening a connection and closing it leaves the open connections as
    they were. *)
Lemma close_after_connect (d : Db.database) :
  well_numbered d ->
  Db.open (Db.close (Db.connected d) (snd (Db.connect d))) = Db.open d.
Proof.
  intros H. cbn [Db.connect Db.close Db.open snd filter].
  rewrite Nat.eqb_refl. cbn [negb]. now apply filter_fresh.
Qed.

(** X13.  [init_db] makes the table when it is missing, keeps the rows of a
    table that is there, and closes the connection that it opens; run
    again, it changes nothing in the table. *)
Theorem init_db_keeps_rows (d : Db.database) :
  well_numbered d ->
  Db.results (Db.init_db d)
  = Some (match Db.results d with Some rows => rows | None => [] end)
  /\ Db.open (Db.init_db d) = Db.open d
  /\ Db.results (Db.init_db (Db.init_db d)) = Db.results (Db.init_db d).
Proof.
  intros H. unfold Db.init_db. cbn [Db.get_db Db.connect Db.close_connection].
  repeat split.
  - cbn. now destruct (Db.results d).
  - cbn [Db.create_table Db.close Db.open Db.connected filter].
    rewrite Nat.eqb_refl. cbn [negb]. now apply filter_fresh.
  - cbn. now destruct (Db.results d).
Qed.

(* ================================================================== *)
(** * Properties of [upload_resume] *)



Section View.

Variable e : environment.

(** The job type of the prompt and of the stored row is trimmed and not
    empty. *)
Lemma job_type_of_trimmed (field : option string) :
  job_type_of field <> ""%string
  /\ strip (job_type_of field) = job_type_of field.
Proof.
  unfold job_type_of.
  destruct (strip match field with Some v => v | None => "General Job"%string end)
    as [|c s] eqn:E; cbn [nonempty].
  - split; [discriminate | reflexivity].
  - split; [discriminate|]. rewrite <- E. apply strip_idempotent.
Qed.

(** X14.  The job type that goes in the prompt and in the stored row is the
    field trimmed; it is ['General Job'] when the field is missing or
    blank, so it is never empty. *)
Theorem job_type_defaults (field : option string) :
  job_type_of field <> ""%string
  /\ strip (job_type_of field) = job_type_of field
  /\ job_type_of None = "General Job"%string
  /\ (forall v, is_blank v = true ->
        job_type_of (Some v) = "General Job"%string)
  /\ (forall v, is_blank v = false -> job_type_of (Some v) = strip v).
Proof.
  destruct (job_type_of_trimmed field) as [H1 H2].
  split; [exact H1|]. split; [exact H2|]. split; [reflexivity|].
  unfold job_type_of, is_blank. split; intros v H.
  - apply negb_true_iff in H. now rewrite H.
  - apply negb_false_iff in H. now rewrite H.
Qed.

Lemma upload_not_accepted (req : request) (w : world) :
  accepted req = false ->
  upload_resume e req w = (Returned (Error (rejection req), 400), w).
Proof.
  unfold accepted, rejection, upload_resume.
  destruct (files_resume req) as [file|]; [|reflexivity].
  destruct (filename file) as [|c s]; [reflexivity|].
  cbn [String.eqb nonempty andb]. intros ->.
  now destruct (String.eqb (String c s) "").
Qed.

(** X15.  A request without the file part, without a file name, or with a
    file name that does not end with [.pdf] gets the status 400 with the
    message of the failed test, and the view writes no file, sends no
    request and touches no row. *)
Theorem upload_rejected (req : request) (w : world) :
  accepted req = false ->
  upload_resume e req w = (Returned (Error (rejection req), 400), w).
Proof. exact (upload_not_accepted req w). Qed.


Lemma eqb_nonempty (s : string) : String.eqb s "" = negb (nonempty s).
Proof. now destruct s. Qed.

(** The view on an accepted request, branch by branch. *)
Lemma upload_accepted (req : request) (w : world) :
  accepted req = true ->
  upload_resume e req w
  = match save e (filepath_of req) with
    | SaveRaised x created =>
        (Raised x,
         mkWorld (net w)
           (disk w ++ if created then [Save (filepath_of req)] else [])
           (db w) (g w))
    | Saved =>
        match remove_raises e (filepath_of req) with
        | Some x =>
            (Raised x,
             mkWorld (net w) (disk w ++ [Save (filepath_of req)])
               (db w) (g w))
        | None =>
            let w1 :=
              mkWorld (net w)
                (disk w ++ [Save (filepath_of req); Remove (filepath_of req)])
                (db w) (g w) in
            match resume_text_of req with
            | Some text => analyse e text (form_job_type req) w1
            | None =>
                (Returned
                   (Error
                      "Failed to extract text from PDF. Please ensure it's a searchable PDF.",
                    500), w1)
            end
        end
    end.
Proof.
  unfold accepted, upload_resume, resume_text_of, filepath_of.
  destruct (files_resume req) as [file|]; [|discriminate].
  intros H. rewrite H, eqb_nonempty.
  apply andb_true_iff in H as [-> _]. cbn [negb].
  destruct (save e _); [|reflexivity].
  destruct (remove_raises e _); [reflexivity|].
  now destruct (extract_text_from_pdf (document file)) as [[|c s]|].
Qed.

Lemma upload_disk_works (req : request) (w : world) :
  accepted req = true -> disk_works e req ->
  upload_resume e req w
  = let w1 :=
      mkWorld (net w)
        (disk w ++ [Save (filepath_of req); Remove (filepath_of req)])
        (db w) (g w) in
    match resume_text_of req with
    | Some text => analyse e text (form_job_type req) w1
    | None =>
        (Returned
           (Error
              "Failed to extract text from PDF. Please ensure it's a searchable PDF.",
            500), w1)
    end.
Proof.
  intros Ha [Hs Hr]. now rewrite upload_accepted, Hs, Hr.
Qed.

(** X16.  When [file.save] and [os.remove] do not raise and no text comes out
    of an accepted upload (the file or a page cannot be read, or the text
    is empty), the response has the status 500, the saved file is removed,
    and the view sends no request and touches no row. *)
Theorem upload_without_text (req : request) (w : world) :
  accepted req = true -> disk_works e req -> resume_text_of req = None ->
  upload_resume e req w
  = (Returned
       (Error
          "Failed to extract text from PDF. Please ensure it's a searchable PDF.",
        500),
     mkWorld (net w)
       (disk w ++ [Save (filepath_of req); Remove (filepath_of req)])
       (db w) (g w)).
Proof. intros Ha Hd Ht. now rewrite upload_disk_works, Ht. Qed.

(** The parts of the world that [analyse] leaves or extends, on every
    path. *)
Lemma analyse_disk_net (text : string) (field : option string) (w : world) :
  disk (snd (analyse e text field w)) = disk w
  /\ net (snd (analyse e text field w))
     = net w
       ++ snd (call_gemini_api_with_retry (transport e)
                 (ats_prompt (job_type_of field) text) 5 1 []).
Proof.
  unfold analyse.
  destruct (call_gemini_api_with_retry _ _ _ _ _) as [[reply|x] trace];
    [|now split].
  destruct (parse_ats_response _ _) as [parsed|x]; [|now split].
  cbn [g db net disk].
  destruct (g w) as [c|]; [|destruct (connect_raises e); [now split|]];
    cbn [Db.get_db Db.connect];
    (destruct (Db.cursor _ _); [|now split]);
    destruct (Db.insert _ _ _) as [[| |] d3]; now split.
Qed.

(** The view after the text is extracted, in a new application context. *)
Lemma analyse_fresh (text : string) (field : option string) (w : world) :
  g w = None ->
  analyse e text field w
  = match call_gemini_api_with_retry (transport e)
            (ats_prompt (job_type_of field) text) 5 1 [] with
    | (Raised x, trace) =>
        (Raised x, mkWorld (net w ++ trace) (disk w) (db w) None)
    | (Returned reply, trace) =>
        match parse_ats_response (max_str_digits e) reply with
        | Raised x =>
            (Raised x, mkWorld (net w ++ trace) (disk w) (db w) None)
        | Returned parsed =>
            match connect_raises e with
            | Some x =>
                (Raised x, mkWorld (net w ++ trace) (disk w) (db w) None)
            | None =>
                match
                  Db.insert (insert_failure e)
                    (Db.mkRow (now e) text (job_type_of field)
                       (ats_score_val (Parser.atsScore parsed))
                       (dumps e (Parser.suggestions parsed)))
                    (snd (Db.connect (db w)))
                with
                | (Db.IntTooLarge, d3) =>
                    (Raised OverflowError,
                     mkWorld (net w ++ trace) (disk w) d3
                       (Some (Db.connected (db w))))
                | (_, d3) =>
                    (Returned
                       (Analysis (Parser.atsScore parsed)
                          (Parser.suggestions parsed) text, 200),
                     mkWorld (net w ++ trace) (disk w) d3
                       (Some (Db.connected (db w))))
                end
            end
        end
    end.
Proof.
  intros Hg. unfold analyse.
  destruct (call_gemini_api_with_retry _ _ _ _ _) as [[reply|x] trace];
    cbn [g db net disk]; rewrite ?Hg; [|reflexivity].
  destruct (parse_ats_response _ _) as [parsed|x]; [|reflexivity].
  destruct (connect_raises e); [reflexivity|].
  cbn [Db.get_db Db.connect snd]. unfold Db.cursor.
  cbn [Db.open existsb]. rewrite Nat.eqb_refl. cbn [orb].
  now destruct (Db.insert _ _ _) as [[| |] d3].
Qed.


Lemma upload_disk_ok (req : request) (w : world) :
  accepted req = true -> disk_works e req ->
  disk (snd (upload_resume e req w))
  = disk w ++ [Save (filepath_of req); Remove (filepath_of req)].
Proof.
  intros Ha Hd. rewrite upload_disk_works by assumption. cbv zeta.
  destruct (resume_text_of req) as [t|]; [|reflexivity].
  now destruct (analyse_disk_net t (form_job_type req)
                  (mkWorld (net w)
                     (disk w
                      ++ [Save (filepath_of req); Remove (filepath_of req)])
                     (db w) (g w))) as [-> _].
Qed.

(** X17.  The view removes the upload that it saved whenever [file.save] and
    [os.remove] do not raise, whatever happens in between and after (no
    text, a service that fails, an exception of the call, of the parser,
    of the connection or of the insertion).  When [file.save] raises, the
    view raises and removes nothing: a file that was created stays.  When
    [os.remove] raises, the file stays.  A request that is not accepted
    writes nothing. *)
Theorem upload_removes_what_it_saves (req : request) (w : world) :
  disk (snd (upload_resume e req w))
  = if accepted req
    then
      match save e (filepath_of req) with
      | SaveRaised _ created =>
          disk w ++ (if created then [Save (filepath_of req)] else [])
      | Saved =>
          match remove_raises e (filepath_of req) with
          | Some _ => disk w ++ [Save (filepath_of req)]
          | None =>
              disk w ++ [Save (filepath_of req); Remove (filepath_of req)]
          end
      end
    else disk w.
Proof.
  destruct (accepted req) eqn:Ha.
  - destruct (save e (filepath_of req)) eqn:Hs.
    + destruct (remove_raises e (filepath_of req)) eqn:Hr.
      * now rewrite upload_accepted, Hs, Hr.
      * now apply upload_disk_ok.
    + now rewrite upload_accepted, Hs.
  - now rewrite upload_not_accepted.
Qed.

(** X18.  The view saves the upload, and removes it, at the path that
    [os.path.join] makes of the upload folder and the file name of the
    client: under [uploads/] when the name does not start with a slash,
    and at the name itself when it does, which is outside the upload
    folder. *)
Theorem upload_path (file : file_storage) (field : option string)
    (w : world) :
  let req := mkRequest (Some file) field in
  accepted req = true -> disk_works e req ->
  (startswith "/" (filename file) = false ->
     disk (snd (upload_resume e req w))
     = disk w ++ [Save ("uploads/" ++ filename file)%string;
                  Remove ("uploads/" ++ filename file)%string])
  /\ (startswith "/" (filename file) = true ->
        disk (snd (upload_resume e req w))
        = disk w ++ [Save (filename file); Remove (filename file)]).
Proof.
  cbv zeta. intros Ha Hd.
  rewrite upload_disk_ok by assumption.
  unfold filepath_of, path_join. cbn [files_resume].
  split; intros ->; reflexivity.
Qed.

(** X19.  One upload makes at most five requests to the generation service,
    all with the prompt made of the job type and of the text of the
    upload, with sleeps of 1, 2, 4 and 8 between them; it makes none when
    the request is not accepted, when no text comes out of the upload, and
    when [file.save] or [os.remove] raises. *)
Theorem upload_requests_bounded (req : request) (w : world) :
  exists n,
    n <= 5
    /\ net (snd (upload_resume e req w))
       = net w
         ++ backoff_trace
              (ats_prompt (job_type_of (form_job_type req))
                 (match resume_text_of req with
                  | Some text => text
                  | None => EmptyString
                  end)) 1 0 n
    /\ (accepted req = false \/ resume_text_of req = None
        \/ save e (filepath_of req) <> Saved
        \/ remove_raises e (filepath_of req) <> None -> n = 0).
Proof.
  assert (forall w' : world, net w' = net w ->
            exists n,
              n <= 5
              /\ net w'
                 = net w
                   ++ backoff_trace
                        (ats_prompt (job_type_of (form_job_type req))
                           (match resume_text_of req with
                            | Some text => text
                            | None => EmptyString
                            end)) 1 0 n
              /\ (accepted req = false \/ resume_text_of req = None
                  \/ save e (filepath_of req) <> Saved
                  \/ remove_raises e (filepath_of req) <> None -> n = 0))
    as Hnone.
  { intros w' ->. exists 0. split; [lia|].
    split; [cbn; now rewrite app_nil_r | reflexivity]. }
  destruct (accepted req) eqn:Ha;
    [|rewrite upload_not_accepted by exact Ha; now apply Hnone].
  rewrite upload_accepted by exact Ha.
  destruct (save e (filepath_of req)) eqn:Hs; [|now apply Hnone].
  destruct (remove_raises e (filepath_of req)) eqn:Hr; [now apply Hnone|].
  cbv zeta. destruct (resume_text_of req) as [text|]; [|now apply Hnone].
  destruct (analyse_disk_net text (form_job_type req)
              (mkWorld (net w)
                 (disk w ++ [Save (filepath_of req); Remove (filepath_of req)])
                 (db w) (g w))) as [_ ->].
  cbn [net].
  destruct (call_trace (transport e)
              (ats_prompt (job_type_of (form_job_type req)) text) 5 1)
    as (n & Hn & ->).
  exists n. split; [exact Hn|]. split; [reflexivity|].
  intros [H|[H|[H|H]]]; congruence.
Qed.



End View.

(* ================================================================== *)
(** * The view and the database *)

Lemma parse_suggestions_nonempty (limit : N) (v : json) (r : AnalysisResult) :
  parse_ats_response limit v = Returned r -> Parser.suggestions r <> [].
Proof.
  unfold parse_ats_response. destruct (truthy v); cbn [negb].
  - destruct v; try discriminate.
    rewrite for_lines_returns. cbn [bind]. intros [= <-].
    apply post_process_nonempty.
  - intros [= <-]. discriminate.
Qed.


Section ViewAndDatabase.

Variable e : environment.

(** What the view has done when it responds with an analysis. *)
Lemma analyse_analysis (text : string) (field : option string) (w : world)
    (score : Parser.ats_score) (sugg : list string) (text' : string)
    (status : nat) :
  g w = None ->
  fst (analyse e text field w) = Returned (Analysis score sugg text', status) ->
  exists reply trace,
    call_gemini_api_with_retry (transport e)
      (ats_prompt (job_type_of field) text) 5 1 [] = (Returned reply, trace)
    /\ parse_ats_response (max_str_digits e) reply
       = Returned (mkResult score sugg)
    /\ text' = text /\ status = 200
    /\ connect_raises e = None
    /\ fst (Db.insert (insert_failure e)
              (Db.mkRow (now e) text (job_type_of field)
                 (ats_score_val score) (dumps e sugg))
              (snd (Db.connect (db w)))) <> Db.IntTooLarge
    /\ snd (analyse e text field w)
       = mkWorld (net w ++ trace) (disk w)
           (snd (Db.insert (insert_failure e)
                   (Db.mkRow (now e) text (job_type_of field)
                      (ats_score_val score) (dumps e sugg))
                   (snd (Db.connect (db w)))))
           (Some (Db.connected (db w))).
Proof.
  intros Hg. rewrite analyse_fresh by exact Hg.
  destruct (call_gemini_api_with_retry (transport e)
              (ats_prompt (job_type_of field) text) 5 1 [])
    as [[reply|x] trace]; [|discriminate].
  destruct (parse_ats_response (max_str_digits e) reply)
    as [[score0 sugg0]|x] eqn:Hparse; [|discriminate].
  destruct (connect_raises e); [discriminate|].
  cbn [Parser.atsScore Parser.suggestions].
  destruct (Db.insert _ _ _) as [[| |] d3] eqn:Hins; cbn [fst snd];
    try discriminate; intros [= <- <- <- <-]; rewrite Hins;
    exists reply, trace; cbn [fst snd].
  all: split; [reflexivity|]; split; [exact Hparse|].
  all: repeat (split; [reflexivity|]).
  all: split; [discriminate|reflexivity].
Qed.

(** X21.  In a new application context, a response with an analysis has the
    status 200, the text extracted from the upload, and the score and the
    suggestions that the parser gave for what the call to the generation
    service returned, with the prompt made of the job type and of that
    text; there is at least one suggestion; when the table is there and
    the database takes the insertion, one row is added at the end of the
    table, with the same text, the job type, the score ([NULL] for
    ["N/A"]) and the suggestions serialized. *)
Theorem upload_stores_what_it_returns (req : request) (w : world)
    (score : Parser.ats_score) (sugg : list string) (text : string)
    (status : nat) :
  g w = None ->
  fst (upload_resume e req w) = Returned (Analysis score sugg text, status) ->
  status = 200
  /\ resume_text_of req = Some text
  /\ sugg <> []
  /\ (exists reply,
        fst (call_gemini_api_with_retry (transport e)
               (ats_prompt (job_type_of (form_job_type req)) text) 5 1 [])
        = Returned reply
        /\ parse_ats_response (max_str_digits e) reply
           = Returned (mkResult score sugg))
  /\ (forall rows,
        Db.results (db w) = Some rows -> insert_failure e = Db.NoFailure ->
        Db.results (db (snd (upload_resume e req w)))
        = Some (rows ++ [row_for e req text score sugg])).
Proof.
  intros Hg.
  destruct (accepted req) eqn:Ha;
    [|rewrite upload_not_accepted by exact Ha; discriminate].
  rewrite upload_accepted by exact Ha.
  destruct (save e (filepath_of req)); [|discriminate].
  destruct (remove_raises e (filepath_of req)); [discriminate|].
  cbv zeta.
  destruct (resume_text_of req) as [text0|]; [|discriminate].
  intros H.
  apply analyse_analysis in H; [|exact Hg].
  destruct H
    as (reply & trace & Hcall & Hparse & -> & -> & Hconn & Hins & ->).
  split; [reflexivity|]. split; [reflexivity|].
  split; [exact (parse_suggestions_nonempty _ _ _ Hparse)|].
  split; [exists reply; now rewrite Hcall|].
  intros rows Hrows Hf. revert Hins. rewrite Hf. cbn [snd db].
  unfold Db.insert. cbn [Db.connect snd Db.results Db.ats_score db net disk g Db.connected
       Db.open].
  rewrite Hrows.
  destruct (Db.binds (ats_score_val score)); [reflexivity|].
  intros Hins. now contradiction Hins.
Qed.





(** The database and [g] after the view, from a new [g]. *)
Lemma upload_connection (req : request) (w : world) :
  g w = None ->
  (g (snd (upload_resume e req w)) = None
   /\ db (snd (upload_resume e req w)) = db w)
  \/ (g (snd (upload_resume e req w)) = Some (Db.connected (db w))
      /\ Db.open (db (snd (upload_resume e req w)))
         = Db.connected (db w) :: Db.open (db w)).
Proof.
  intros Hg. destruct (accepted req) eqn:Ha;
    [|rewrite upload_not_accepted by exact Ha; now left].
  rewrite upload_accepted by exact Ha.
  destruct (save e (filepath_of req)); [|now left].
  destruct (remove_raises e (filepath_of req)); [now left|].
  cbv zeta.
  destruct (resume_text_of req) as [text|]; [|now left].
  rewrite analyse_fresh by exact Hg.
  destruct (call_gemini_api_with_retry (transport e)
              (ats_prompt (job_type_of (form_job_type req)) text) 5 1 [])
    as [[reply|x] trace]; [|now left].
  destruct (parse_ats_response (max_str_digits e) reply)
    as [parsed|x]; [|now left].
  destruct (connect_raises e); [now left|].
  right.
  unfold Db.insert. cbn [Db.connect snd Db.results Db.ats_score db net disk g Db.connected
       Db.open].
  destruct (Db.results (db w)); [|now split].
  destruct (insert_failure e);
    destruct (Db.binds (ats_score_val (Parser.atsScore parsed)));
    now split.
Qed.

(** X24.  A request served leaves no connection open: the view opens at most
    one, through [get_db], and the teardown closes it, whatever the
    request and also when the view raises, at [file.save], at
    [os.remove], in the call, in the parser or at the insertion. *)
Theorem serve_closes_connection (req : request) (w : world) :
  well_numbered (db w) ->
  Db.open (db (snd (serve e req w))) = Db.open (db w)
  /\ g (snd (serve e req w)) = None.
Proof.
  intros Hw. unfold serve.
  pose proof (upload_connection req
                (mkWorld (net w) (disk w) (db w) None) eq_refl) as H.
  destruct (upload_resume e req (mkWorld (net w) (disk w) (db w) None))
    as [r w1]. cbn [snd g db] in *. split; [|reflexivity].
  destruct H as [[-> ->]|[-> Hopen]]; [reflexivity|].
  cbn [Db.close_connection Db.close Db.open]. rewrite Hopen.
  cbn [filter]. rewrite Nat.eqb_refl. cbn [negb].
  now apply filter_fresh.
Qed.

End ViewAndDatabase.

(** X25.  A [sqlite3.Error] of the insertion is not seen in the response: when
    the view, in a new application context, returns a response with a
    database that takes the insertion, it returns the same response,
    sends the same requests and leaves the same disk with a database that
    raises [sqlite3.Error] when the statement is prepared, or when it is
    run or committed; the table is then as it was. *)
Theorem upload_response_survives_insert_failure
    (e : environment) (f : Db.failure) (req : request) (w : world)
    (resp : body * nat) :
  g w = None ->
  fst (upload_resume (with_failure Db.NoFailure e) req w) = Returned resp ->
  fst (upload_resume (with_failure f e) req w) = Returned resp
  /\ net (snd (upload_resume (with_failure f e) req w))
     = net (snd (upload_resume (with_failure Db.NoFailure e) req w))
  /\ disk (snd (upload_resume (with_failure f e) req w))
     = disk (snd (upload_resume (with_failure Db.NoFailure e) req w))
  /\ (f <> Db.NoFailure ->
      Db.results (db (snd (upload_resume (with_failure f e) req w)))
      = Db.results (db w)).
Proof.
  intros Hg.
  destruct (accepted req) eqn:Ha;
    [|rewrite !upload_not_accepted by exact Ha; auto].
  rewrite !upload_accepted by exact Ha.
  cbn [with_failure save remove_raises].
  destruct (save e (filepath_of req)); [|discriminate].
  destruct (remove_raises e (filepath_of req)); [discriminate|].
  cbv zeta.
  destruct (resume_text_of req) as [text|]; [|auto].
  rewrite !analyse_fresh by exact Hg.
  cbn [with_failure transport max_str_digits connect_raises insert_failure
       now dumps].
  destruct (call_gemini_api_with_retry (transport e)
              (ats_prompt (job_type_of (form_job_type req)) text) 5 1 [])
    as [[reply|x] trace]; [|discriminate].
  destruct (parse_ats_response (max_str_digits e) reply)
    as [parsed|x]; [|discriminate].
  destruct (connect_raises e); [discriminate|].
  unfold Db.insert. cbn [Db.connect snd Db.results Db.ats_score db net disk g Db.connected
       Db.open].
  destruct (Db.results (db w)) as [rows|]; [|auto].
  destruct (Db.binds (ats_score_val (Parser.atsScore parsed)));
    [|discriminate].
  destruct f; cbn [fst snd net disk db Db.results]; intros H;
    (split; [exact H|]); (split; [reflexivity|]); (split; [reflexivity|]);
    intros Hf; try reflexivity; now contradiction Hf.
Qed.

(* ================================================================== *)
(** * The properties above on sample values *)

Lemma call_returns_first_text_witness :
  call_gemini_api_with_retry third_time "prompt" 5 1 []
  = (Returned (JStr reply_text), backoff_trace "prompt" 1 0 3).
Proof.
  apply (call_returns_first_text third_time "prompt" 5 1 2
           (body_with_text (JStr reply_text)) (JStr reply_text)).
  - lia.
  - intros j Hj. destruct j as [|[|j]]; [reflexivity | reflexivity | lia].
  - reflexivity.
  - unfold text_at, body_with_text. repeat eexists.
  - reflexivity.
Defined.

Lemma call_returns_none_or_text_witness :
  JStr reply_text = JNull
  \/ (truthy (JStr reply_text) = true
      /\ exists k result,
           k < 5
           /\ (forall j, j < k -> third_time j = RequestException)
           /\ third_time k = JsonBody result
           /\ text_at result (JStr reply_text)).
Proof.
  apply (call_returns_none_or_text third_time "prompt" 5 1 (JStr reply_text)).
  reflexivity.
Defined.

Lemma call_raises_cases_witness :
  (exists k,
     k < 5
     /\ (forall j,
           j < k -> (fun _ : nat => JsonBody body_blocked) j = RequestException)
     /\ (fun _ : nat => JsonBody body_blocked) k
        = OtherException AttributeError)
  \/ (exists k result,
        k < 5
        /\ (forall j,
              j < k
              -> (fun _ : nat => JsonBody body_blocked) j = RequestException)
        /\ (fun _ : nat => JsonBody body_blocked) k = JsonBody result
        /\ on_body result = Raised AttributeError
        /\ (AttributeError = AttributeError \/ AttributeError = KeyError
            \/ AttributeError = TypeError)).
Proof.
  apply (call_raises_cases (fun _ => JsonBody body_blocked)
           "prompt" 5 1 AttributeError).
  - intros i Hi.
    do 4 (destruct i as [|i]; [vm_compute; discriminate|]). lia.
  - reflexivity.
Defined.

Lemma score_never_negative_nor_capped_witness :
  exists r,
    parse_ats_response DEFAULT_MAX_STR_DIGITS
      (JStr ("Summary" ++ nl ++ "ATS Score: 18446744073709551616/100" ++ nl
             ++ "- Add keywords")%string) = Returned r
    /\ Parser.atsScore r = ScoreInt 18446744073709551616.
Proof.
  apply (proj1 (proj2 (score_never_negative_nor_capped
                         DEFAULT_MAX_STR_DIGITS))
           ("Summary" ++ nl ++ "ATS Score: 18446744073709551616/100" ++ nl
            ++ "- Add keywords")%string
           ["Summary"%string] ["- Add keywords"%string]
           "ATS Score: 18446744073709551616/100" "18446744073709551616");
    [reflexivity | reflexivity | reflexivity |].
  intros l' [<-|[]]. reflexivity.
Defined.

Lemma parse_suggestions_collected_witness :
  exists r,
    parse_ats_response DEFAULT_MAX_STR_DIGITS
      (JStr ("Add a summary" ++ nl ++ "- Add keywords")) = Returned r
    /\ Parser.suggestions r = ["Add a summary"; "Add keywords"]%string.
Proof.
  apply (parse_suggestions_collected DEFAULT_MAX_STR_DIGITS
           ("Add a summary" ++ nl ++ "- Add keywords")).
  discriminate.
Defined.

Lemma parse_ignores_blank_lines_witness :
  parse_ats_response DEFAULT_MAX_STR_DIGITS
    (JStr (nl ++ "ATS Score: 82/100" ++ nl ++ "  " ++ nl
           ++ "- Add keywords" ++ nl))
  = parse_ats_response DEFAULT_MAX_STR_DIGITS
      (JStr ("ATS Score: 82/100" ++ nl ++ "- Add keywords")).
Proof.
  apply (parse_ignores_blank_lines DEFAULT_MAX_STR_DIGITS
           ("ATS Score: 82/100" ++ nl ++ "- Add keywords")
           (nl ++ "ATS Score: 82/100" ++ nl ++ "  " ++ nl
            ++ "- Add keywords" ++ nl));
    [discriminate | discriminate | reflexivity].
Defined.

Lemma parse_ignores_padding_witness :
  parse_ats_response DEFAULT_MAX_STR_DIGITS
    (JStr ("  ATS Score: 82/100" ++ CR ++ nl ++ "  - Add keywords" ++ CR))
  = parse_ats_response DEFAULT_MAX_STR_DIGITS
      (JStr ("ATS Score: 82/100" ++ nl ++ "- Add keywords")).
Proof.
  apply (parse_ignores_padding DEFAULT_MAX_STR_DIGITS
           ("ATS Score: 82/100" ++ nl ++ "- Add keywords")
           ("  ATS Score: 82/100" ++ CR ++ nl ++ "  - Add keywords" ++ CR));
    [discriminate|].
  repeat constructor; exists "  "%string, CR; repeat split.
Defined.

Lemma parse_structured_output_witness :
  parse_ats_response DEFAULT_MAX_STR_DIGITS
    (JStr (structured_output "75" ["Suggestion 1"; "Suggestion 2"]%string))
  = Returned (mkResult (ScoreInt 75) ["Suggestion 1"; "Suggestion 2"]%string).
Proof.
  apply (parse_structured_output DEFAULT_MAX_STR_DIGITS "75"
           ["Suggestion 1"; "Suggestion 2"]%string);
    [discriminate | reflexivity | reflexivity | discriminate |].
  repeat constructor.
Defined.

Lemma init_db_keeps_rows_witness :
  Db.results (Db.init_db (Db.mkDatabase None 0 [])) = Some []
  /\ Db.open (Db.init_db (Db.mkDatabase None 0 [])) = []
  /\ Db.results (Db.init_db (Db.init_db (Db.mkDatabase None 0 [])))
     = Db.results (Db.init_db (Db.mkDatabase None 0 [])).
Proof.
  apply (init_db_keeps_rows (Db.mkDatabase None 0 [])). constructor.
Defined.

Lemma upload_rejected_witness :
  upload_resume (env_of third_time)
    (mkRequest (Some (mkFile "cv.docx" Unreadable)) None) start
  = (Returned (Error "Invalid file type. Only PDF is supported.", 400),
     start).
Proof.
  apply (upload_rejected (env_of third_time)
           (mkRequest (Some (mkFile "cv.docx" Unreadable)) None) start).
  reflexivity.
Defined.

Lemma upload_without_text_witness :
  upload_resume (env_of third_time) (mkRequest (Some scanned) None) start
  = (Returned
       (Error
          "Failed to extract text from PDF. Please ensure it's a searchable PDF.",
        500),
     mkWorld [] [Save "uploads/scan.pdf"; Remove "uploads/scan.pdf"]
       (Db.mkDatabase (Some []) 0 []) None).
Proof.
  apply (upload_without_text (env_of third_time)
           (mkRequest (Some scanned) None) start);
    [reflexivity | split; reflexivity | reflexivity].
Defined.

Lemma upload_path_witness :
  (startswith "/" "/etc/cv.pdf" = false ->
     disk (snd (upload_resume (env_of third_time)
                  (mkRequest (Some (mkFile "/etc/cv.pdf" Unreadable)) None)
                  start))
     = disk start ++ [Save "uploads//etc/cv.pdf"; Remove "uploads//etc/cv.pdf"])
  /\ (startswith "/" "/etc/cv.pdf" = true ->
        disk (snd (upload_resume (env_of third_time)
                     (mkRequest (Some (mkFile "/etc/cv.pdf" Unreadable)) None)
                     start))
        = disk start ++ [Save "/etc/cv.pdf"; Remove "/etc/cv.pdf"]).
Proof.
  apply (upload_path (env_of third_time) (mkFile "/etc/cv.pdf" Unreadable)
           None start);
    [reflexivity | split; reflexivity].
Defined.


Lemma upload_stores_what_it_returns_witness :
  200 = 200
  /\ resume_text_of (mkRequest (Some cv) (Some "  Data Engineer "%string))
     = Some "Jane Doe Engineer"%string
  /\ ["Add keywords"; "Fix formatting"]%string <> []
  /\ (exists reply,
        fst (call_gemini_api_with_retry (transport (env_of third_time))
               (ats_prompt
                  (job_type_of
                     (form_job_type
                        (mkRequest (Some cv)
                           (Some "  Data Engineer "%string))))
                  "Jane Doe Engineer") 5 1 [])
        = Returned reply
        /\ parse_ats_response (max_str_digits (env_of third_time)) reply
           = Returned
               (mkResult (ScoreInt 82)
                  ["Add keywords"; "Fix formatting"]%string))
  /\ (forall rows,
        Db.results (db start) = Some rows ->
        insert_failure (env_of third_time) = Db.NoFailure ->
        Db.results
          (db (snd (upload_resume (env_of third_time)
                      (mkRequest (Some cv) (Some "  Data Engineer "%string))
                      start)))
        = Some (rows
                ++ [row_for (env_of third_time)
                      (mkRequest (Some cv) (Some "  Data Engineer "%string))
                      "Jane Doe Engineer" (ScoreInt 82)
                      ["Add keywords"; "Fix formatting"]%string])).
Proof.
  apply (upload_stores_what_it_returns (env_of third_time)
           (mkRequest (Some cv) (Some "  Data Engineer "%string)) start
           (ScoreInt 82) ["Add keywords"; "Fix formatting"]%string
           "Jane Doe Engineer" 200);
    reflexivity.
Defined.




Lemma serve_closes_connection_witness :
  Db.open (db (snd (serve (env_of third_time) (mkRequest (Some cv) None)
                      start))) = []
  /\ g (snd (serve (env_of third_time) (mkRequest (Some cv) None) start))
     = None.
Proof.
  apply (serve_closes_connection (env_of third_time)
           (mkRequest (Some cv) None) start).
  constructor.
Defined.

Lemma upload_response_survives_insert_failure_witness :
  fst (upload_resume (with_failure Db.AtStep (env_of third_time))
         (mkRequest (Some cv) None) start)
  = Returned
      (Analysis (ScoreInt 82) ["Add keywords"; "Fix formatting"]%string
         "Jane Doe Engineer", 200)
  /\ net (snd (upload_resume (with_failure Db.AtStep (env_of third_time))
                 (mkRequest (Some cv) None) start))
     = net (snd (upload_resume
                   (with_failure Db.NoFailure (env_of third_time))
                   (mkRequest (Some cv) None) start))
  /\ disk (snd (upload_resume (with_failure Db.AtStep (env_of third_time))
                  (mkRequest (Some cv) None) start))
     = disk (snd (upload_resume
                    (with_failure Db.NoFailure (env_of third_time))
                    (mkRequest (Some cv) None) start))
  /\ (Db.AtStep <> Db.NoFailure ->
      Db.results
        (db (snd (upload_resume (with_failure Db.AtStep (env_of third_time))
                    (mkRequest (Some cv) None) start)))
      = Db.results (db start)).
Proof.
  apply (upload_response_survives_insert_failure (env_of third_time)
           Db.AtStep (mkRequest (Some cv) None) start
           (Analysis (ScoreInt 82) ["Add keywords"; "Fix formatting"]%string
              "Jane Doe Engineer", 200));
    reflexivity.
Defined.

(** The stored row of the sample upload. *)
Example upload_sample_row :
  Db.results
    (db (snd (serve (env_of third_time)
                (mkRequest (Some cv) (Some "  Data Engineer "%string))
                start)))
  = Some [Db.mkRow "2025-01-01T00:00:00" "Jane Doe Engineer" "Data Engineer"
            (Some 82%Z) "Add keywords; Fix formatting"].
Proof. reflexivity. Qed.

(** The sample upload under a name whose folder is missing: the view
    raises at [file.save], sends no request and writes nothing. *)
Example upload_sample_no_folder :
  upload_resume env_no_folder (mkRequest (Some cv) None) start
  = (Raised FileNotFoundError, start).
Proof. reflexivity. Qed.
